(** * rpy2.robjects: conversion core

    A shallow embedding of [rpy2/robjects/__init__.py]: the promotion of
    R vectors to their robjects wrappers ([sexpvector_to_ro]), the
    inference of an R vector class from a Python sequence
    ([sequence_to_vector]), the name-to-class map for S4 classes
    ([NameClassMap]) with its context manager ([NameClassMapContext]),
    and the registrations made on [default_converter] when the module
    is loaded. *)

From Stdlib Require Import ZArith Lia.
From stdpp Require Import base option list strings gmap.

Open Scope string_scope.

(** ** Python: exceptions and outcomes *)

Module Py.

(** The exceptions the module raises or lets through.  All of them
    derive from [Exception]; [UserError] stands for whatever the body
    of a [with] block may raise. *)
Inductive exn : Type :=
| ValueError (msg : string)
| AssertionError
| KeyError (key : string)
| LookupError
| TypeError
| NotImplementedError
| UnboundLocalError
| ReferenceError
| UserError (tag : string).

Inductive outcome (A : Type) : Type :=
| Return (a : A)
| Raise (e : exn).
Arguments Return {A} a.
Arguments Raise {A} e.

Definition is_return {A} (o : outcome A) : bool :=
  match o with Return _ => true | Raise _ => false end.

Definition is_raise {A} (o : outcome A) : bool :=
  match o with Return _ => false | Raise _ => true end.

Definition obind {A B} (o : outcome A) (k : A → outcome B) : outcome B :=
  match o with
  | Return a => k a
  | Raise e => Raise e
  end.

End Py.
Import Py.

(** ** rpy2.rinterface: what the module reads of an R object *)

Module rinterface.

(** [rinterface.RTYPES]: the R storage types. *)
Inductive RTYPES : Type :=
| NILSXP | SYMSXP | LISTSXP | CLOSXP | ENVSXP | PROMSXP | LANGSXP
| SPECIALSXP | BUILTINSXP | CHARSXP | LGLSXP | INTSXP | REALSXP
| CPLXSXP | STRSXP | DOTSXP | ANYSXP | VECSXP | EXPRSXP | BCODESXP
| EXTPTRSXP | WEAKREFSXP | RAWSXP | S4SXP.

#[global] Instance RTYPES_eq_dec : EqDecision RTYPES.
Proof. solve_decision. Defined.

(** The Python classes used as dispatch keys or tested with
    [isinstance] / [type]. *)
Inductive pytype : Type :=
| ty_object | ty_RObject | ty_Sexp | ty_SexpVector | ty_SexpClosure
| ty_SexpEnvironment | ty_SexpS4 | ty_SexpExtPtr | ty_NULLType
| ty_bool | ty_int | ty_float | ty_complex | ty_str
| ty_named (name : string).

#[global] Instance pytype_eq_dec : EqDecision pytype.
Proof. solve_decision. Defined.

(** The value of an attribute (slot): an R vector, of which only the
    length is read here, or an R object on which [len] is not
    defined. *)
Inductive slot : Type :=
| IntSlot (xs : list Z)
| StrSlot (xs : list string)
| UnsizedSlot.

(** An R object as seen from Python: the method resolution order of
    its Python class (most derived first), its R storage type, its R
    class names and its attributes. *)
Record Sexp : Type := mkSexp {
  py_mro : list pytype;
  typeof : RTYPES;
  rclass : list string;
  slots : gmap string slot
}.

Definition isinstance (obj : Sexp) (t : pytype) : bool :=
  bool_decide (t ∈ py_mro obj).

(** [obj.do_slot(name)] raises [LookupError] when [obj] has no such
    attribute. *)
Definition do_slot (obj : Sexp) (name : string) : outcome slot :=
  match slots obj !! name with
  | Some v => Return v
  | None => Raise LookupError
  end.

(** [len(x)] on an attribute value. *)
Definition len (x : slot) : outcome nat :=
  match x with
  | IntSlot xs => Return (length xs)
  | StrSlot xs => Return (length xs)
  | UnsizedSlot => Raise TypeError
  end.

End rinterface.
Import rinterface.

(** ** The wrapper classes of rpy2.robjects *)

Inductive pycls : Type :=
| BoolVector | BoolMatrix | BoolArray
| IntVector | IntMatrix | IntArray
| FloatVector | FloatMatrix | FloatArray
| ComplexVector | ComplexMatrix | ComplexArray
| StrVector | StrMatrix | StrArray
| ByteVector | ByteMatrix | ByteArray
| FactorVector | ListVector | PairlistVector | LangVector
| POSIXct | DataFrame | Formula
| RObject | SignatureTranslatedFunction | Environment.

#[global] Instance pycls_eq_dec : EqDecision pycls.
Proof. solve_decision. Defined.

(** What a conversion hands back: the object as it is, or a new
    instance [c(arg)] of a wrapper class built from it. *)
Inductive pyobject (C A : Type) : Type :=
| Asis (o : A)
| New (c : C) (arg : A).
Arguments Asis {C A} o.
Arguments New {C A} c arg.

(** ** Promotion of R vectors *)

Section Promotion.

(** [vectors.POSIXct.isrinstance], defined in [rpy2.robjects.vectors]. *)
Variable POSIXct_isrinstance : Sexp → bool.

(** Should it be promoted to array or matrix?  Any exception raised
    while reading the dimension gives the vector class. *)
Definition _vector_matrix_array (obj : Sexp)
    (vector_cls matrix_cls array_cls : pycls) : pycls :=
  match obind (do_slot obj "dim") len with
  | Return n => if decide (n = 2%nat) then matrix_cls else array_cls
  | Raise _ => vector_cls
  end.

(** The class chosen by the [if]/[elif] chain of [sexpvector_to_ro];
    [None] is the final [else]. *)
Definition sexpvector_cls (obj : Sexp) : option pycls :=
  let rcls := rclass obj in
  if decide ("data.frame" ∈ rcls) then Some DataFrame
  else if decide (typeof obj = INTSXP) then
    if decide ("factor" ∈ rcls) then Some FactorVector
    else Some (_vector_matrix_array obj IntVector IntMatrix IntArray)
  else if decide (typeof obj = REALSXP) then
    if POSIXct_isrinstance obj then Some POSIXct
    else Some (_vector_matrix_array obj FloatVector FloatMatrix FloatArray)
  else if decide (typeof obj = LGLSXP) then
    Some (_vector_matrix_array obj BoolVector BoolMatrix BoolArray)
  else if decide (typeof obj = STRSXP) then
    Some (_vector_matrix_array obj StrVector StrMatrix StrArray)
  else if decide (typeof obj = VECSXP) then Some ListVector
  else if decide (typeof obj = LISTSXP) then Some PairlistVector
  else if decide (typeof obj = LANGSXP) then
    if decide ("formula" ∈ rcls) then Some Formula
    else Some LangVector
  else if decide (typeof obj = CPLXSXP) then
    Some (_vector_matrix_array obj ComplexVector ComplexMatrix ComplexArray)
  else if decide (typeof obj = RAWSXP) then
    Some (_vector_matrix_array obj ByteVector ByteMatrix ByteArray)
  else None.

Definition sexpvector_to_ro (obj : Sexp) : outcome (pyobject pycls Sexp) :=
  if negb (isinstance obj ty_SexpVector) then
    Raise (ValueError "is not an R vector.")
  else
    match sexpvector_cls obj with
    | Some cls => Return (New cls obj)
    | None => Return (Asis obj)
    end.

End Promotion.

(** ** From a Python sequence to an R vector *)

(** The Python values a sequence may hold.  A float is its IEEE 754
    bit pattern; [PyObject] is an instance of any other class. *)
Inductive pyvalue : Type :=
| PyBool (b : bool)
| PyInt (n : Z)
| PyFloat (bits : Z)
| PyComplex (re_bits im_bits : Z)
| PyStr (s : string)
| PyObject (clsname : string).

(** [type(elt)]: the exact class, so [True] is a [bool] and not an
    [int]. *)
Definition type (elt : pyvalue) : pytype :=
  match elt with
  | PyBool _ => ty_bool
  | PyInt _ => ty_int
  | PyFloat _ => ty_float
  | PyComplex _ _ => ty_complex
  | PyStr _ => ty_str
  | PyObject n => ty_named n
  end.

Definition TYPEORDER (cls : pytype) : option (Z * pycls) :=
  match cls with
  | ty_bool => Some (0, BoolVector)
  | ty_int => Some (1, IntVector)
  | ty_float => Some (2, FloatVector)
  | ty_complex => Some (3, ComplexVector)
  | ty_str => Some (4, StrVector)
  | _ => None
  end%Z.

(** The local variables of [sequence_to_vector] that the loop updates;
    [curr_type] is unbound until the first assignment. *)
Record stv_locals : Type := mkLocals {
  curr_typeorder : Z;
  curr_type : option pycls;
  i : option nat
}.

(** The [for i, elt in enumerate(lst)] loop, from index [idx] on. *)
Fixpoint stv_loop (idx : nat) (lst : list pyvalue) (st : stv_locals)
    : outcome stv_locals :=
  match lst with
  | [] => Return st
  | elt :: rest =>
      let cls := type elt in
      match TYPEORDER cls with
      | Some (order, vec) =>
          let st' :=
            if decide (order > curr_typeorder st)%Z
            then mkLocals order (Some vec) (Some idx)
            else mkLocals (curr_typeorder st) (curr_type st) (Some idx) in
          stv_loop (S idx) rest st'
      | None =>
          Raise (ValueError "The element in the list has a type that cannot be handled.")
      end
  end.

Definition sequence_to_vector (lst : list pyvalue)
    : outcome (pyobject pycls (list pyvalue)) :=
  obind (stv_loop 0 lst (mkLocals (-1) None None)) (λ st,
    match i st with
    | None =>
        Raise (ValueError "The parameter lst is an empty sequence. The type of the corresponding R vector cannot be determined.")
    | Some _ =>
        match curr_type st with
        | Some cls => Return (New cls lst)
        | None => Raise UnboundLocalError
        end
    end).

(** ** The objects that are shared and updated in place *)

(** References to objects on the heap. *)
Definition loc : Type := nat.

(** [NameClassMap]: maps a name (R class name) to a Python class.
    [cls] is the type of Python classes. *)
Record NameClassMap (cls : Type) : Type := mkNameClassMap {
  _default : cls;
  _map : gmap string cls
}.
Arguments mkNameClassMap {cls} _ _.
Arguments _default {cls} _.
Arguments _map {cls} _.

(** One entry of [_keep]: the key, whether it was in the map, and the
    class it was mapped to ([None] in Python when it was not). *)
Definition kept (cls : Type) : Type := (string * bool * option cls)%type.

(** [NameClassMapContext]: [_nameclassmap] is a reference to the map,
    [_d] a dict (its items in insertion order), [_keep] a list. *)
Record NameClassMapContext (cls : Type) : Type := mkNameClassMapContext {
  _nameclassmap : loc;
  _d : list (string * cls);
  _keep : list (kept cls)
}.
Arguments mkNameClassMapContext {cls} _ _ _.
Arguments _nameclassmap {cls} _.
Arguments _d {cls} _.
Arguments _keep {cls} _.

Record heap (cls : Type) : Type := mkHeap {
  ncms : gmap loc (NameClassMap cls);
  ctxs : gmap loc (NameClassMapContext cls)
}.
Arguments mkHeap {cls} _ _.
Arguments ncms {cls} _.
Arguments ctxs {cls} _.

(** Computations that read and update the heap and may raise.  What
    was written to the heap before an exception stays written. *)
Definition M (cls A : Type) : Type := heap cls → outcome A * heap cls.

Module HeapM.
Section WithClasses.
Context {cls : Type}.

Definition ret {A} (a : A) : M cls A := λ h, (Return a, h).

Definition raise {A} (e : exn) : M cls A := λ h, (Raise e, h).

Definition bind {A B} (m : M cls A) (k : A → M cls B) : M cls B :=
λ h, match m h with
     | (Return a, h') => k a h'
     | (Raise e, h') => (Raise e, h')
     end.

Definition get_ctx (c : loc) : M cls (NameClassMapContext cls) :=
λ h, match ctxs h !! c with
     | Some x => (Return x, h)
     | None => (Raise ReferenceError, h)
     end.

Definition put_ctx (c : loc) (x : NameClassMapContext cls) : M cls unit :=
λ h, (Return (), mkHeap (ncms h) (<[c := x]> (ctxs h))).

(** Call, on the map at [r], a method that only reads it. *)
Definition read_ncm {A} (r : loc) (method : NameClassMap cls → outcome A)
  : M cls A :=
λ h, match ncms h !! r with
     | Some m => (method m, h)
     | None => (Raise ReferenceError, h)
     end.

(** Call, on the map at [r], a method that updates it. *)
Definition call_ncm {A} (r : loc)
  (method : NameClassMap cls → outcome A * NameClassMap cls) : M cls A :=
λ h, match ncms h !! r with
     | Some m =>
         let '(o, m') := method m in
         (o, mkHeap (<[r := m']> (ncms h)) (ctxs h))
     | None => (Raise ReferenceError, h)
     end.

End WithClasses.
End HeapM.
Import HeapM.

Notation "x ←' m ; k" := (bind m (λ x, k))
  (at level 20, m at level 100, k at level 200, only parsing, right associativity).
Notation "m ;;' k" := (bind m (λ _, k))
  (at level 100, k at level 200, only parsing, right associativity).

(** ** NameClassMap *)

Module NameClassMap.
Section WithClasses.

(** The Python classes stored in the map, with [issubclass]. *)
Context {cls : Type} (issubclass : cls → cls → bool).

Definition __init__ (defaultcls : cls) : NameClassMap cls :=
{| _default := defaultcls; _map := ∅ |}.

Definition __contains__ (self : NameClassMap cls) (key : string) : bool :=
bool_decide (is_Some (_map self !! key)).

Definition __delitem__ (self : NameClassMap cls) (key : string)
  : outcome unit * NameClassMap cls :=
match _map self !! key with
| Some _ =>
    (Return (), {| _default := _default self;
                   _map := delete key (_map self) |})
| None => (Raise (KeyError key), self)
end.

Definition __getitem__ (self : NameClassMap cls) (key : string)
  : outcome cls :=
match _map self !! key with
| Some v => Return v
| None => Raise (KeyError key)
end.

Definition __setitem__ (self : NameClassMap cls) (key : string)
  (value : cls) : outcome unit * NameClassMap cls :=
if issubclass value (_default self) then
  (Return (), {| _default := _default self;
                 _map := <[key := value]> (_map self) |})
else (Raise AssertionError, self).

(** Find the first mapping key in a sequence of names. *)
Fixpoint find_key (self : NameClassMap cls) (keys : list string)
  : option string :=
match keys with
| [] => None
| k :: rest => if __contains__ self k then Some k else find_key self rest
end.

(** The truth value of a string: the empty string is false. *)
Definition bool_of_str (s : string) : bool :=
negb (bool_decide (s = EmptyString)).

(** Find the first mapping in a sequence of names.  [if k:] is false
  when [find_key] returned [None], and also when it returned a
  string that is false. *)
Definition find (self : NameClassMap cls) (keys : list string)
  : outcome cls :=
match find_key self keys with
| Some k => if bool_of_str k then __getitem__ self k
            else Return (_default self)
| None => Return (_default self)
end.

(** Every class in the map is a subclass of the default class. *)
Definition wf (self : NameClassMap cls) : Prop :=
map_Forall (λ _ v, issubclass v (_default self) = true) (_map self).

End WithClasses.
End NameClassMap.

(** ** NameClassMapContext *)

Module NameClassMapContext.
Section WithClasses.
Context {cls : Type} (issubclass : cls → cls → bool).

(** The constructor allocates the new object at a fresh reference. *)
Definition __init__ (nameclassmap : loc) (d : list (string * cls))
  : M cls loc :=
λ h, let self := fresh (dom (ctxs h)) in
     (Return self,
      mkHeap (ncms h)
             (<[self := mkNameClassMapContext nameclassmap d []]> (ctxs h))).

(** [self._keep.append(e)] *)
Definition keep_append (self : loc) (e : kept cls) : M cls unit :=
x ←' get_ctx self;
put_ctx self (mkNameClassMapContext (_nameclassmap x) (_d x) (_keep x ++ [e])).

(** The loop of [__enter__] over the items of [self._d]. *)
Fixpoint enter_loop (self nameclassmap : loc) (items : list (string * cls))
  : M cls unit :=
match items with
| [] => ret ()
| (k, v) :: rest =>
    present ←' read_ncm nameclassmap
                 (λ m, Return (NameClassMap.__contains__ m k));
    entry ←' (if present : bool then
                orig_v ←' read_ncm nameclassmap
                            (λ m, NameClassMap.__getitem__ m k);
                ret (k, true, Some orig_v)
              else ret (k, false, None));
    (keep_append self entry ;;'
     call_ncm nameclassmap (λ m, NameClassMap.__setitem__ issubclass m k v) ;;'
     enter_loop self nameclassmap rest)
end.

Definition __enter__ (self : loc) : M cls unit :=
x ←' get_ctx self;
enter_loop self (_nameclassmap x) (_d x).

(** The loop of [__exit__] over [self._keep]. *)
Fixpoint exit_loop (nameclassmap : loc) (keep : list (kept cls))
  : M cls unit :=
match keep with
| [] => ret ()
| (k, restore, orig_v) :: rest =>
    ((if restore : bool then
        match orig_v with
        | Some v =>
            call_ncm nameclassmap
              (λ m, NameClassMap.__setitem__ issubclass m k v)
        | None => raise TypeError
        end
      else
        call_ncm nameclassmap (λ m, NameClassMap.__delitem__ m k)) ;;'
     exit_loop nameclassmap rest)
end.

(** [exc] is the exception that left the body, if any; the method
  does not look at it and returns [False]. *)
Definition __exit__ (self : loc) (exc : option exn) : M cls bool :=
x ←' get_ctx self;
(exit_loop (_nameclassmap x) (_keep x) ;;' ret false).

(** [with self: body].  [__exit__] is not called when [__enter__]
  raises; an exception of the body is raised again unless
  [__exit__] returns true. *)
Definition with_ {A} (self : loc) (body : M cls A) : M cls (option A) :=
λ h, match __enter__ self h with
     | (Raise e, h1) => (Raise e, h1)
     | (Return _, h1) =>
         match body h1 with
         | (Return a, h2) =>
             match __exit__ self None h2 with
             | (Return _, h3) => (Return (Some a), h3)
             | (Raise e, h3) => (Raise e, h3)
             end
         | (Raise e, h2) =>
             match __exit__ self (Some e) h2 with
             | (Return suppress, h3) =>
                 if suppress then (Return None, h3) else (Raise e, h3)
             | (Raise e', h3) => (Raise e', h3)
             end
         end
     end.

End WithClasses.
End NameClassMapContext.

(** ** The converter and what the module registers on it *)

(** The class of a converted object: a wrapper class of rpy2.robjects,
    or a class found in the map of S4 classes. *)
Inductive wrapper (cls : Type) : Type :=
| Robjects (c : pycls)
| S4Class (c : cls).
Arguments Robjects {cls} c.
Arguments S4Class {cls} c.

Module conversion.
Section WithClasses.
Context {cls : Type}.

(** A conversion function from R objects to Python objects. *)
Definition handler : Type := Sexp → M cls (pyobject (wrapper cls) Sexp).

(** Modelled from the spec: [rpy2.robjects.conversion.Converter] is
  not among the sources.  A converter has a label and a dispatch
  table for the inbound direction (the outbound table plays no
  part here); each type descriptor maps to at most one handler. *)
Record Converter : Type := mkConverter {
name : string;
rpy2py_table : list (pytype * handler)
}.

(** Modelled from the spec: registration installs or replaces the
  handler of an exact type descriptor; the last registration
  wins. *)
Definition register (t : pytype) (f : handler) (c : Converter) : Converter :=
{| name := name c;
   rpy2py_table :=
     (t, f) :: filter (λ e, e.1 ≠ t) (rpy2py_table c) |}.

Fixpoint lookup_handler (table : list (pytype * handler)) (t : pytype)
  : option handler :=
match table with
| [] => None
| (t', f) :: rest =>
    if decide (t' = t) then Some f else lookup_handler rest t
end.

Definition registered (c : Converter) (t : pytype) : option handler :=
lookup_handler (rpy2py_table c) t.

(** Modelled from the spec: the handler of the most specific class
  of the value that has one, searching its runtime class chain
  from the most derived class to [object]. *)
Fixpoint dispatch (c : Converter) (mro : list pytype) : option handler :=
match mro with
| [] => None
| t :: rest =>
    match registered c t with
    | Some f => Some f
    | None => dispatch c rest
    end
end.

(** Modelled from the spec: inbound conversion applies the handler
  found, and fails when there is none at all. *)
Definition rpy2py (c : Converter) (obj : Sexp)
  : M cls (pyobject (wrapper cls) Sexp) :=
match dispatch c (py_mro obj) with
| Some f => f obj
| None => raise NotImplementedError
end.

End WithClasses.
Arguments handler : clear implicits.
Arguments Converter : clear implicits.
End conversion.

(** ** The module's own state and registrations *)

Section Robjects.
Context {cls : Type} (issubclass : cls → cls → bool).

(** [vectors.POSIXct.isrinstance], from [rpy2.robjects.vectors]. *)
Variable POSIXct_isrinstance : Sexp → bool.
(** [methods_env['extends']], the R function that lists the classes
    a class extends, most derived first. *)
Variable extends : list string → list string.
(** [rpy2.robjects.methods.RS4] *)
Variable RS4 : cls.

(** [_rs4_map = NameClassMap(RS4)] is the first object allocated. *)
Definition _rs4_map : loc := 0%nat.

Definition module_heap : heap cls :=
  mkHeap {[ _rs4_map := NameClassMap.__init__ RS4 ]} ∅.

(** [rs4map_context = partial(NameClassMapContext, _rs4_map)] *)
Definition rs4map_context (d : list (string * cls)) : M cls loc :=
  NameClassMapContext.__init__ _rs4_map d.

Definition _rpy2py_robject : conversion.handler cls :=
  λ obj, ret (Asis obj).

(** [sexpvector_to_ro] as a handler. *)
Definition rpy2py_sexpvector : conversion.handler cls :=
  λ obj, match sexpvector_to_ro POSIXct_isrinstance obj with
         | Return (New c o) => ret (New (Robjects c) o)
         | Return (Asis o) => ret (Asis o)
         | Raise e => raise e
         end.

Definition _rpy2py_sexpclosure : conversion.handler cls :=
  λ obj, ret (New (Robjects SignatureTranslatedFunction) obj).

Definition _rpy2py_sexpenvironment : conversion.handler cls :=
  λ obj, ret (New (Robjects Environment) obj).

Definition _rpy2py_sexps4 : conversion.handler cls :=
  λ obj,
    c ←' read_ncm _rs4_map (λ m, NameClassMap.find m (extends (rclass obj)));
    ret (New (S4Class c) obj).

Definition _rpy2py_sexpextptr : conversion.handler cls :=
  λ obj, ret (Asis obj).

Definition _rpy2py_object : conversion.handler cls :=
  λ obj, ret (New (Robjects RObject) obj).

Definition _rpy2py_null : conversion.handler cls :=
  λ obj, ret (Asis obj).

(** The second function registered for [object]; the source names
    it [_]. *)
Definition rpy2py_underscore : conversion.handler cls :=
  λ obj, ret (Asis obj).

(** The inbound registrations, in the order the module makes them,
    starting from [conversion.Converter('base empty converter')]. *)
Definition default_converter : conversion.Converter cls :=
  conversion.register ty_object rpy2py_underscore
  (conversion.register ty_NULLType _rpy2py_null
  (conversion.register ty_object _rpy2py_object
  (conversion.register ty_SexpExtPtr _rpy2py_sexpextptr
  (conversion.register ty_SexpS4 _rpy2py_sexps4
  (conversion.register ty_SexpEnvironment _rpy2py_sexpenvironment
  (conversion.register ty_SexpClosure _rpy2py_sexpclosure
  (conversion.register ty_SexpVector rpy2py_sexpvector
  (conversion.register ty_RObject _rpy2py_robject
  (conversion.mkConverter "base empty converter" [] ))))))))).

End Robjects.

(** ** Definitions used to state the properties *)

(** The vector, matrix and array classes of the six storage types
    that [sexpvector_to_ro] hands to [_vector_matrix_array]. *)
Definition shape_classes (t : RTYPES) : option (pycls * pycls * pycls) :=
  match t with
  | INTSXP => Some (IntVector, IntMatrix, IntArray)
  | REALSXP => Some (FloatVector, FloatMatrix, FloatArray)
  | LGLSXP => Some (BoolVector, BoolMatrix, BoolArray)
  | STRSXP => Some (StrVector, StrMatrix, StrArray)
  | CPLXSXP => Some (ComplexVector, ComplexMatrix, ComplexArray)
  | RAWSXP => Some (ByteVector, ByteMatrix, ByteArray)
  | _ => None
  end.

Definition is_matrix_or_array (c : pycls) : bool :=
  match c with
  | BoolMatrix | BoolArray | IntMatrix | IntArray | FloatMatrix | FloatArray
  | ComplexMatrix | ComplexArray | StrMatrix | StrArray
  | ByteMatrix | ByteArray => true
  | _ => false
  end.

(** Whether a sequence holds an element of exactly the type [t]. *)
Definition has_type (t : pytype) (lst : list pyvalue) : bool :=
  existsb (λ e, bool_decide (type e = t)) lst.

(** The vector class of the most general type present, under
    bool < int < float < complex < str. *)
Definition most_general_vector (lst : list pyvalue) : pycls :=
  if has_type ty_str lst then StrVector
  else if has_type ty_complex lst then ComplexVector
  else if has_type ty_float lst then FloatVector
  else if has_type ty_int lst then IntVector
  else BoolVector.

(** Its priority. *)
Definition highest_order (lst : list pyvalue) : Z :=
  if has_type ty_str lst then 4
  else if has_type ty_complex lst then 3
  else if has_type ty_float lst then 2
  else if has_type ty_int lst then 1
  else 0.

(** A small class hierarchy for examples: [RS4] with four subclasses,
    and a class that does not derive from it. *)
Inductive s4cls : Type := RS4 | ClsX | ClsY | ClsZ | ClsW | NotS4.

#[global] Instance s4cls_eq_dec : EqDecision s4cls.
Proof. solve_decision. Defined.

Definition s4_issubclass (c d : s4cls) : bool :=
  bool_decide (c = d) || (bool_decide (d = RS4) && negb (bool_decide (c = NotS4))).

(** Objects used in the examples. *)
Definition float_sexp (rcls : list string) (dim : option slot) : Sexp :=
  {| py_mro := [ty_named "FloatSexpVector"; ty_SexpVector; ty_Sexp; ty_object];
     typeof := REALSXP;
     rclass := rcls;
     slots := match dim with
              | Some d => {[ "dim" := d ]}
              | None => ∅
              end |}.

Definition int_sexp (rcls : list string) (dim : option slot) : Sexp :=
  {| py_mro := [ty_named "IntSexpVector"; ty_SexpVector; ty_Sexp; ty_object];
     typeof := INTSXP;
     rclass := rcls;
     slots := match dim with
              | Some d => {[ "dim" := d ]}
              | None => ∅
              end |}.

(** The types that have a priority in [TYPEORDER]. *)
Definition registered_types : list pytype :=
  [ty_bool; ty_int; ty_float; ty_complex; ty_str].

(** The locals after the loop has run over [seen]. *)
Definition stv_after (seen : list pyvalue) : stv_locals :=
  match seen with
  | [] => mkLocals (-1) None None
  | _ :: _ =>
      mkLocals (highest_order seen) (Some (most_general_vector seen))
               (Some (length seen - 1)%nat)
  end.

(** What [__enter__] records for the items of [_d], read against the
    map as it is before any of them is installed. *)
Definition snapshot {cls} (m : NameClassMap cls) (items : list (string * cls))
    : list (kept cls) :=
  (λ kv, (kv.1, NameClassMap.__contains__ m kv.1, _map m !! kv.1)) <$> items.

(** The table once every item has been installed. *)
Definition install {cls} (items : list (string * cls)) (t : gmap string cls)
    : gmap string cls :=
  foldl (λ t kv, <[kv.1 := kv.2]> t) t items.

(** The table once every kept entry has been put back or removed. *)
Definition undo {cls} (keep : list (kept cls)) (t : gmap string cls)
    : gmap string cls :=
  foldl (λ t (e : kept cls),
           let '(k, restore, orig_v) := e in
           if restore then
             match orig_v with Some v => <[k := v]> t | None => t end
           else delete k t) t keep.

(** Closed goals on concrete data are settled by evaluation. *)
Ltac by_evaluation :=
  first [ reflexivity
        | vm_compute; reflexivity
        | apply (bool_decide_unpack _); vm_compute; exact I ].

(** The map of the example for the empty name: [m = NameClassMap(RS4)]
    followed by [m[EmptyString] = ClsX]. *)
Definition empty_name_map : NameClassMap s4cls :=
  (NameClassMap.__setitem__ s4_issubclass
     (NameClassMap.__init__ RS4) EmptyString ClsX).2.

(** The heap once [__enter__] has run for the context [x] at [c] on
    the map [m] at [r]: every item is installed, and the snapshot is
    appended to [_keep]. *)
Definition entered {cls} (r c : loc) (m : NameClassMap cls)
    (x : NameClassMapContext cls) (h : heap cls) : heap cls :=
  mkHeap (<[r := mkNameClassMap (_default m) (install (_d x) (_map m))]>
            (ncms h))
         (<[c := mkNameClassMapContext r (_d x)
                   (_keep x ++ snapshot m (_d x))]> (ctxs h)).

(** The example of a scoped override: the map [{"A": ClsX}] with
    default [RS4] at reference 0, and at reference 1 a context for it
    with the items [{"A": ClsY, "B": ClsZ}] that was not entered yet. *)
Definition override_map : NameClassMap s4cls :=
  mkNameClassMap RS4 {[ "A" := ClsX ]}.

Definition override_ctx : NameClassMapContext s4cls :=
  mkNameClassMapContext 0%nat [("A", ClsY); ("B", ClsZ)] [].

Definition override_heap : heap s4cls :=
  mkHeap {[ 0%nat := override_map ]} {[ 1%nat := override_ctx ]}.

(** [nameclassmap.find(names)] on the map at [r]. *)
Definition resolve {cls} (r : loc) (names : list string) : M cls cls :=
  read_ncm r (λ m, NameClassMap.find m names).

(** The inner part of the nesting example:
    [with NameClassMapContext(ncm, {"A": W}): in_inner = ncm.find(["A"])]
    followed by [after_inner = ncm.find(["A"])]. *)
Definition inner_override {cls} (issubclass : cls → cls → bool)
    (r : loc) (W : cls) : M cls (option cls * cls) :=
  inner ←' NameClassMapContext.__init__ r [("A", W)];
  in_inner ←' NameClassMapContext.with_ issubclass inner (resolve r ["A"]);
  after_inner ←' resolve r ["A"];
  ret (in_inner, after_inner).

(** The nesting example:
    [with NameClassMapContext(ncm, {"A": Y}):] around the inner part,
    followed by [after_outer = ncm.find(["A"])]. *)
Definition nested_overrides {cls} (issubclass : cls → cls → bool)
    (r : loc) (Y W : cls) : M cls (option (option cls * cls) * cls) :=
  outer ←' NameClassMapContext.__init__ r [("A", Y)];
  res ←' NameClassMapContext.with_ issubclass outer
           (inner_override issubclass r W);
  after_outer ←' resolve r ["A"];
  ret (res, after_outer).

(** The example of a context used twice: [ncm = NameClassMap(RS4)] at
    reference 0, then [ctx = NameClassMapContext(ncm, {"B": ClsZ})]
    and [with ctx: pass]. *)
Definition fresh_map_heap : heap s4cls :=
  mkHeap {[ 0%nat := NameClassMap.__init__ RS4 ]} ∅.

(** [ctx._keep] after the first [with ctx: pass]. *)
Definition keep_after_first_use : M s4cls (list (kept s4cls)) :=
  ctx ←' NameClassMapContext.__init__ 0%nat [("B", ClsZ)];
  (NameClassMapContext.with_ s4_issubclass ctx (ret ()) ;;'
   x ←' get_ctx ctx;
   ret (_keep x)).

(** A second [with ctx: pass] after the first. *)
Definition second_use : M s4cls (option unit) :=
  ctx ←' NameClassMapContext.__init__ 0%nat [("B", ClsZ)];
  (NameClassMapContext.with_ s4_issubclass ctx (ret ()) ;;'
   NameClassMapContext.with_ s4_issubclass ctx (ret ())).

(** Every map on the heap holds subclasses of its default class
    only. *)
Definition heap_wf {cls} (issubclass : cls → cls → bool) (h : heap cls)
    : Prop :=
  map_Forall (λ _ m, NameClassMap.wf issubclass m) (ncms h).

(** A computation that keeps [heap_wf], whatever its outcome. *)
Definition preserves {cls A} (issubclass : cls → cls → bool) (p : M cls A)
    : Prop :=
  ∀ h, heap_wf issubclass h → heap_wf issubclass (p h).2.

(** An R symbol as rinterface hands it over: an instance of
    [SexpSymbol], a subclass of [Sexp] for which the module registers
    no conversion function of its own. *)
Definition symbol_sexp : Sexp :=
  {| py_mro := [ty_named "SexpSymbol"; ty_Sexp; ty_object];
     typeof := SYMSXP;
     rclass := ["name"];
     slots := ∅ |}.

(** ** Formula *)

(** A [Formula] object, of which the methods below read and assign
    attributes only: the attributes of the R object, by name.
    [do_slot] raises [LookupError] for a missing attribute and
    [do_slot_assign] sets one. *)
Record FormulaObject : Type := mkFormulaObject {
  attributes : gmap string Sexp
}.

Module Formula.
Section WithConversion.

(** [conversion.rpy2py], as set by [conversion.set_conversion]; [V] is
    the type of converted objects. *)
Context {V : Type} (rpy2py : Sexp → outcome V).

(** Get the environment in which the formula is finding its symbols. *)
Definition getenvironment (self : FormulaObject) : outcome V :=
  match attributes self !! ".Environment" with
  | Some res => rpy2py res
  | None => Raise LookupError
  end.

(** Set the environment in which a formula will find its symbols. *)
Definition setenvironment (self : FormulaObject) (val : Sexp)
    : outcome unit * FormulaObject :=
  if negb (isinstance val ty_SexpEnvironment) then (Raise TypeError, self)
  else (Return (),
        mkFormulaObject (<[".Environment" := val]> (attributes self))).

End WithConversion.
End Formula.

(** ** R, the singleton *)

(** What [R.__new__] reads and updates: the class attribute
    [_instance], the embedded R (of which the number of calls of
    [rinterface.initr_simple] is kept) and the next free reference. *)
Record R_state : Type := mkR_state {
  _instance : option loc;
  initr_simple_calls : nat;
  next_object : loc
}.

Module R.

Definition __new__ (s : R_state) : loc * R_state :=
  match _instance s with
  | None =>
      let self := next_object s in
      (self, {| _instance := Some self;
                initr_simple_calls := S (initr_simple_calls s);
                next_object := S self |})
  | Some self => (self, s)
  end.

End R.

(** ** More definitions used to state properties *)

(** [n] calls [R()] in a row, with the instances they return. *)
Fixpoint R_calls (n : nat) (s : R_state) : list loc * R_state :=
  match n with
  | O => ([], s)
  | S n' =>
      let '(self, s1) := R.__new__ s in
      let '(rest, s2) := R_calls n' s1 in
      (self :: rest, s2)
  end.

(** The class of the result of [sequence_to_vector], when it returns. *)
Definition result_class {C A} (o : outcome (pyobject C A)) : option C :=
  match o with
  | Return (New c _) => Some c
  | _ => None
  end.

(** The priority [TYPEORDER] gives to a vector class. *)
Definition priority (c : pycls) : Z :=
  match c with
  | BoolVector => 0
  | IntVector => 1
  | FloatVector => 2
  | ComplexVector => 3
  | StrVector => 4
  | _ => -1
  end.

(** The storage types for which [sexpvector_to_ro] has a branch. *)
Definition handled_types : list RTYPES :=
  [INTSXP; REALSXP; LGLSXP; STRSXP; VECSXP; LISTSXP; LANGSXP; CPLXSXP; RAWSXP].

(** [with rs4map_context(d): res = _rpy2py_sexps4(obj)] *)
Definition convert_s4_within {cls} (issubclass : cls → cls → bool)
    (extends : list string → list string) (d : list (string * cls))
    (obj : Sexp) : M cls (option (pyobject (wrapper cls) Sexp)) :=
  ctx ←' rs4map_context d;
  NameClassMapContext.with_ issubclass ctx (_rpy2py_sexps4 extends obj).

(** An S4 object of R class ["lmList"], which extends ["list"]. *)
Definition s4_sexp : Sexp :=
  {| py_mro := [ty_SexpS4; ty_Sexp; ty_object];
     typeof := S4SXP;
     rclass := ["lmList"];
     slots := ∅ |}.

(** An R environment. *)
Definition env_sexp : Sexp :=
  {| py_mro := [ty_SexpEnvironment; ty_Sexp; ty_object];
     typeof := ENVSXP;
     rclass := ["environment"];
     slots := ∅ |}.

(** An R vector of the given storage type, classes and attributes,
    as rinterface hands it over. *)
Definition vector_sexp (t : RTYPES) (rcls : list string)
    (attrs : gmap string slot) : Sexp :=
  {| py_mro := [ty_SexpVector; ty_Sexp; ty_object];
     typeof := t;
     rclass := rcls;
     slots := attrs |}.

(** A context of which the second item has a class that does not
    derive from [RS4], on the map of the override example. *)
Definition invalid_ctx : NameClassMapContext s4cls :=
  mkNameClassMapContext 0%nat [("B", ClsY); ("A", NotS4); ("C", ClsZ)] [].

Definition invalid_heap : heap s4cls :=
  mkHeap {[ 0%nat := override_map ]} {[ 1%nat := invalid_ctx ]}.

(** The example of a context used a second time after a registration:
    [ncm = NameClassMap(RS4)] at reference 0, then
    [ctx = NameClassMapContext(ncm, {"A": ClsY, "B": ClsZ})],
    [with ctx: pass] and [ncm["B"] = ClsX].  The result is the
    reference of [ctx]. *)
Definition first_use_then_register : M s4cls loc :=
  ctx ←' NameClassMapContext.__init__ 0%nat [("A", ClsY); ("B", ClsZ)];
  (NameClassMapContext.with_ s4_issubclass ctx (ret ()) ;;'
   call_ncm 0%nat (λ m, NameClassMap.__setitem__ s4_issubclass m "B" ClsX) ;;'
   ret ctx).

(** The heap on which the second [with ctx: pass] of that example
    starts. *)
Definition second_entry_heap : heap s4cls :=
  (first_use_then_register fresh_map_heap).2.

(** * Properties *)

Open Scope list_scope.

(** ** Promotion of R vectors *)

Section PromotionFacts.
Variable POSIXct_isrinstance : Sexp → bool.

Lemma vector_matrix_array_absent obj vec mat arr :
  slots obj !! "dim" = None →
  _vector_matrix_array obj vec mat arr = vec.
Proof.
  intros Hdim. unfold _vector_matrix_array, do_slot. by rewrite Hdim.
Qed.

Lemma vector_matrix_array_present obj vec mat arr d n :
  slots obj !! "dim" = Some d → len d = Return n →
  _vector_matrix_array obj vec mat arr = if decide (n = 2%nat) then mat else arr.
Proof.
  intros Hdim Hlen. unfold _vector_matrix_array, do_slot.
  rewrite Hdim. simpl. by rewrite Hlen.
Qed.

Lemma vector_matrix_array_unsized obj vec mat arr d e :
  slots obj !! "dim" = Some d → len d = Raise e →
  _vector_matrix_array obj vec mat arr = vec.
Proof.
  intros Hdim Hlen. unfold _vector_matrix_array, do_slot.
  rewrite Hdim. simpl. by rewrite Hlen.
Qed.

(** Without a class-based override, the six vector storage types go
    through [_vector_matrix_array] with their own three classes. *)
Lemma sexpvector_cls_shape obj vec mat arr :
  shape_classes (typeof obj) = Some (vec, mat, arr) →
  "data.frame" ∉ rclass obj →
  "factor" ∉ rclass obj →
  POSIXct_isrinstance obj = false →
  sexpvector_cls POSIXct_isrinstance obj
  = Some (_vector_matrix_array obj vec mat arr).
Proof.
  intros Hshape Hdf Hfac Hposix. unfold sexpvector_cls.
  rewrite Hposix.
  destruct (decide ("data.frame" ∈ rclass obj)) as [|_]; [done|].
  destruct (decide ("factor" ∈ rclass obj)) as [|_]; [done|].
  destruct (typeof obj); simpl in Hshape; try discriminate;
    injection Hshape as <- <- <-; reflexivity.
Qed.

Lemma sexpvector_to_ro_vector obj :
  isinstance obj ty_SexpVector = true →
  sexpvector_to_ro POSIXct_isrinstance obj
  = match sexpvector_cls POSIXct_isrinstance obj with
    | Some cls => Return (New cls obj)
    | None => Return (Asis obj)
    end.
Proof. intros Hvec. unfold sexpvector_to_ro. by rewrite Hvec. Qed.

(** C3, as the code has it: for a vector-like value without a
    class-based override the wrapper depends on the dimension
    attribute alone.  No dimension gives the plain vector class, a
    dimension of length exactly 2 the matrix class, and a dimension of
    any other length the array class: length 3 or more, and also
    length 0 or 1. *)
Theorem promotion_by_dimension (obj : Sexp) (vec mat arr : pycls) :
  isinstance obj ty_SexpVector = true →
  shape_classes (typeof obj) = Some (vec, mat, arr) →
  "data.frame" ∉ rclass obj →
  "factor" ∉ rclass obj →
  POSIXct_isrinstance obj = false →
  (slots obj !! "dim" = None →
     sexpvector_to_ro POSIXct_isrinstance obj = Return (New vec obj)) ∧
  (∀ d, slots obj !! "dim" = Some d → len d = Return 2%nat →
     sexpvector_to_ro POSIXct_isrinstance obj = Return (New mat obj)) ∧
  (∀ d n, slots obj !! "dim" = Some d → len d = Return n → n ≠ 2%nat →
     sexpvector_to_ro POSIXct_isrinstance obj = Return (New arr obj)).
Proof.
  intros Hvec Hshape Hdf Hfac Hposix.
  rewrite (sexpvector_to_ro_vector obj Hvec).
  rewrite (sexpvector_cls_shape obj vec mat arr Hshape Hdf Hfac Hposix).
  split; [|split].
  - intros Hdim. by rewrite vector_matrix_array_absent.
  - intros d Hdim Hlen.
    by rewrite (vector_matrix_array_present obj vec mat arr d 2 Hdim Hlen).
  - intros d n Hdim Hlen Hn.
    rewrite (vector_matrix_array_present obj vec mat arr d n Hdim Hlen).
    by destruct (decide (n = 2%nat)).
Qed.

(** C4: the class-based overrides come before the shape rule.  A
    vector whose classes contain 'data.frame' becomes a [DataFrame]
    whatever its storage type, its other classes and its dimension;
    that test is the first of the chain.  An integer vector whose
    classes contain 'factor' is never promoted to a matrix or an
    array, whatever its dimension: it becomes a [FactorVector], unless
    the 'data.frame' test, which comes first, has made it a
    [DataFrame]. *)
Theorem class_overrides_come_first (obj : Sexp) :
  isinstance obj ty_SexpVector = true →
  ("data.frame" ∈ rclass obj →
     sexpvector_to_ro POSIXct_isrinstance obj = Return (New DataFrame obj)) ∧
  (typeof obj = INTSXP → "factor" ∈ rclass obj →
     (∀ c, sexpvector_to_ro POSIXct_isrinstance obj = Return (New c obj) →
           is_matrix_or_array c = false) ∧
     sexpvector_to_ro POSIXct_isrinstance obj
     = Return (New (if decide ("data.frame" ∈ rclass obj)
                    then DataFrame else FactorVector) obj)).
Proof.
  intros Hvec. rewrite (sexpvector_to_ro_vector obj Hvec).
  unfold sexpvector_cls. split.
  - intros Hdf. by destruct (decide ("data.frame" ∈ rclass obj)).
  - intros Hint Hfac. rewrite Hint.
    destruct (decide ("data.frame" ∈ rclass obj)) as [Hdf|Hdf]; simpl.
    + split; [|done]. intros c [= <-]. reflexivity.
    + destruct (decide ("factor" ∈ rclass obj)) as [_|]; [|done].
      split; [|done]. intros c [= <-]. reflexivity.
Qed.

End PromotionFacts.

(** C3, witness: a real vector of dimension [3, 4] becomes a
    [FloatMatrix]. *)
Lemma promotion_by_dimension_witness :
  let obj := float_sexp [] (Some (IntSlot [3; 4]%Z)) in
  isinstance obj ty_SexpVector = true ∧
  shape_classes (typeof obj) = Some (FloatVector, FloatMatrix, FloatArray) ∧
  ("data.frame" ∉ rclass obj) ∧
  ("factor" ∉ rclass obj) ∧
  sexpvector_to_ro (λ _, false) obj = Return (New FloatMatrix obj).
Proof.
  intros obj.
  assert (H1 : isinstance obj ty_SexpVector = true) by by_evaluation.
  assert (H2 : shape_classes (typeof obj)
               = Some (FloatVector, FloatMatrix, FloatArray)) by by_evaluation.
  assert (H3 : "data.frame" ∉ rclass obj) by by_evaluation.
  assert (H4 : "factor" ∉ rclass obj) by by_evaluation.
  split; [exact H1|]. split; [exact H2|].
  split; [exact H3|]. split; [exact H4|].
  apply (proj1 (proj2 (promotion_by_dimension (λ _, false) obj
                         FloatVector FloatMatrix FloatArray
                         H1 H2 H3 H4 eq_refl))
               (IntSlot [3; 4]%Z)); by_evaluation.
Defined.

(** C3, counterexample: a dimension attribute that is present and of
    length 0 does not give the plain vector class; the real vector
    below becomes a [FloatArray]. *)
Lemma empty_dimension_is_not_plain_vector :
  ¬ (∀ (POSIXct_isrinstance : Sexp → bool) (obj : Sexp) (vec mat arr : pycls) d,
       isinstance obj ty_SexpVector = true →
       shape_classes (typeof obj) = Some (vec, mat, arr) →
       "data.frame" ∉ rclass obj →
       "factor" ∉ rclass obj →
       POSIXct_isrinstance obj = false →
       slots obj !! "dim" = Some d → len d = Return 0%nat →
       sexpvector_to_ro POSIXct_isrinstance obj = Return (New vec obj)).
Proof.
  intros H.
  specialize (H (λ _, false) (float_sexp [] (Some (IntSlot [])))
                FloatVector FloatMatrix FloatArray (IntSlot [])).
  assert (Hrun : sexpvector_to_ro (λ _, false) (float_sexp [] (Some (IntSlot [])))
                 = Return (New FloatArray (float_sexp [] (Some (IntSlot []))))).
  { by_evaluation. }
  rewrite Hrun in H.
  assert (Hne : Return (New FloatArray (float_sexp [] (Some (IntSlot []))))
                ≠ Return (New FloatVector (float_sexp [] (Some (IntSlot []))))).
  { intros [=]. }
  apply Hne, H; by_evaluation.
Qed.

(** C4, witness: an integer vector of classes 'factor' and dimension
    [2, 2] becomes a [FactorVector]. *)
Lemma class_overrides_come_first_witness :
  let obj := int_sexp ["factor"] (Some (IntSlot [2; 2]%Z)) in
  isinstance obj ty_SexpVector = true ∧
  sexpvector_to_ro (λ _, false) obj = Return (New FactorVector obj).
Proof.
  intros obj.
  assert (H1 : isinstance obj ty_SexpVector = true) by by_evaluation.
  split; [assumption|].
  apply (proj2 (proj2 (class_overrides_come_first (λ _, false) obj H1)
                      eq_refl ltac:(by_evaluation))).
Defined.

(** ** From a Python sequence to an R vector *)

Lemma TYPEORDER_registered t :
  t ∈ registered_types ↔ is_Some (TYPEORDER t).
Proof.
  unfold registered_types. split.
  - rewrite !elem_of_cons, elem_of_nil.
    intros [->|[->|[->|[->|[->|[]]]]]]; simpl; eauto.
  - intros [x Hx]. destruct t; simpl in Hx; try discriminate;
      rewrite !elem_of_cons; tauto.
Qed.

Lemma stv_loop_app l1 l2 idx st :
  stv_loop idx (l1 ++ l2) st
  = obind (stv_loop idx l1 st) (stv_loop (idx + length l1) l2).
Proof.
  revert idx st. induction l1 as [|e l1 IH]; intros idx st; simpl.
  - by rewrite Nat.add_0_r.
  - destruct (TYPEORDER (type e)) as [[order vec]|]; [|done].
    rewrite IH. by rewrite Nat.add_succ_r.
Qed.

Lemma has_type_app t l1 l2 :
  has_type t (l1 ++ l2) = has_type t l1 || has_type t l2.
Proof. unfold has_type. apply existsb_app. Qed.

Lemma stv_after_snoc l e :
  type e ∈ registered_types →
  stv_loop (length l) [e] (stv_after l) = Return (stv_after (l ++ [e])).
Proof.
  intros He. destruct l as [|e0 l].
  - unfold registered_types in He.
    destruct e; simpl in He; try (vm_compute; reflexivity).
    exfalso. rewrite !elem_of_cons, elem_of_nil in He.
    destruct He as [?|[?|[?|[?|[?|[]]]]]]; discriminate.
  - assert (Hlen : (length ((e0 :: l) ++ [e]) - 1 = length (e0 :: l))%nat).
    { rewrite length_app. simpl. lia. }
    change ((e0 :: l) ++ [e]) with (e0 :: (l ++ [e])) in *.
    unfold stv_after at 2. rewrite Hlen.
    change (e0 :: (l ++ [e])) with ((e0 :: l) ++ [e]).
    unfold stv_after, highest_order, most_general_vector.
    rewrite !has_type_app.
    generalize (e0 :: l). intros s.
    unfold registered_types in He.
    destruct (has_type ty_str s), (has_type ty_complex s),
      (has_type ty_float s), (has_type ty_int s);
      destruct e; simpl in He |- *; try reflexivity;
      exfalso; rewrite !elem_of_cons, elem_of_nil in He;
      destruct He as [?|[?|[?|[?|[?|[]]]]]]; discriminate.
Qed.

Lemma stv_loop_registered lst :
  Forall (λ e, type e ∈ registered_types) lst →
  stv_loop 0 lst (mkLocals (-1) None None) = Return (stv_after lst).
Proof.
  induction lst as [|e l IH] using rev_ind; intros Hall.
  - reflexivity.
  - rewrite Forall_app, Forall_singleton in Hall. destruct Hall as [Hl He].
    rewrite stv_loop_app, (IH Hl).
    change (stv_loop (length l) [e] (stv_after l)
            = Return (stv_after (l ++ [e]))).
    by apply stv_after_snoc.
Qed.

Lemma stv_loop_unregistered lst idx st :
  Exists (λ e, TYPEORDER (type e) = None) lst →
  ∃ msg, stv_loop idx lst st = Raise (ValueError msg).
Proof.
  revert idx st. induction lst as [|e l IH]; intros idx st Hex.
  - by apply Exists_nil in Hex.
  - simpl. destruct (TYPEORDER (type e)) as [[order vec]|] eqn:He.
    + apply Exists_cons in Hex as [Hhd|Htl]; [congruence|].
      by apply IH.
    + eauto.
Qed.

Lemma sequence_to_vector_registered lst :
  lst ≠ [] →
  Forall (λ e, type e ∈ registered_types) lst →
  sequence_to_vector lst = Return (New (most_general_vector lst) lst).
Proof.
  intros Hne Hall. unfold sequence_to_vector.
  rewrite (stv_loop_registered lst Hall).
  destruct lst as [|e l]; [done|]. reflexivity.
Qed.

(** C7: [sequence_to_vector] raises, and then a [ValueError], exactly
    when the sequence is empty or holds an element whose type has no
    priority in [TYPEORDER]; in every other case it returns a vector
    built from the whole sequence. *)
Theorem sequence_to_vector_raises_iff (lst : list pyvalue) :
  ((∃ e, sequence_to_vector lst = Raise e)
   ↔ (lst = [] ∨ Exists (λ elt, TYPEORDER (type elt) = None) lst)) ∧
  (∀ e, sequence_to_vector lst = Raise e → ∃ msg, e = ValueError msg) ∧
  ((∀ e, sequence_to_vector lst ≠ Raise e) →
   ∃ cls, sequence_to_vector lst = Return (New cls lst)).
Proof.
  assert (Hcases :
    (lst = [] ∨ Exists (λ elt, TYPEORDER (type elt) = None) lst)
    ∨ (lst ≠ [] ∧ Forall (λ e, type e ∈ registered_types) lst)).
  { destruct lst as [|e0 l]; [by left; left|].
    destruct (decide (Exists (λ elt, TYPEORDER (type elt) = None) (e0 :: l)))
      as [Hex|Hnex]; [by left; right|].
    right. split; [done|].
    apply not_Exists_Forall in Hnex; [|apply _].
    eapply Forall_impl; [exact Hnex|].
    intros x Hx. simpl in Hx. apply TYPEORDER_registered.
    destruct (TYPEORDER (type x)); [eauto|done]. }
  assert (Hraise :
    (lst = [] ∨ Exists (λ elt, TYPEORDER (type elt) = None) lst) →
    ∃ msg, sequence_to_vector lst = Raise (ValueError msg)).
  { intros [->|Hex]; [vm_compute; eauto|].
    destruct (stv_loop_unregistered lst 0 (mkLocals (-1) None None) Hex)
      as [msg Hmsg].
    exists msg. unfold sequence_to_vector. by rewrite Hmsg. }
  destruct Hcases as [Hbad|[Hne Hall]].
  - destruct (Hraise Hbad) as [msg Hmsg]. split; [|split].
    + split; [done|]. intros _. eauto.
    + intros e He. rewrite Hmsg in He. injection He as <-. eauto.
    + intros Hno. by destruct (Hno _ Hmsg).
  - pose proof (sequence_to_vector_registered lst Hne Hall) as Hok.
    split; [|split].
    + split.
      * intros [e He]. rewrite Hok in He. discriminate.
      * intros Hbad. destruct (Hraise Hbad) as [msg Hmsg].
        rewrite Hok in Hmsg. discriminate.
    + intros e He. rewrite Hok in He. discriminate.
    + intros _. eauto.
Qed.

(** C8: on a non-empty sequence whose elements are all of type bool,
    int, float, complex or str, [sequence_to_vector] builds the vector
    class of the most general type present, under
    bool < int < float < complex < str. *)
Theorem sequence_to_vector_most_general (lst : list pyvalue) :
  lst ≠ [] →
  Forall (λ elt, type elt ∈ [ty_bool; ty_int; ty_float; ty_complex; ty_str]) lst →
  sequence_to_vector lst = Return (New (most_general_vector lst) lst).
Proof. apply sequence_to_vector_registered. Qed.

(** C8, witness: [[True, 1, "s"]] gives a [StrVector]. *)
Lemma sequence_to_vector_most_general_witness :
  let lst := [PyBool true; PyInt 1; PyStr "s"] in
  lst ≠ [] ∧
  Forall (λ elt, type elt ∈ [ty_bool; ty_int; ty_float; ty_complex; ty_str]) lst ∧
  sequence_to_vector lst = Return (New StrVector lst).
Proof.
  intros lst.
  assert (H1 : lst ≠ []) by discriminate.
  assert (H2 : Forall (λ elt, type elt
                 ∈ [ty_bool; ty_int; ty_float; ty_complex; ty_str]) lst)
    by by_evaluation.
  split; [exact H1|]. split; [exact H2|].
  exact (sequence_to_vector_most_general lst H1 H2).
Defined.

(** ** NameClassMap *)

Section ResolverFacts.
Context {cls : Type} (issubclass : cls → cls → bool).
Implicit Types (m : NameClassMap cls) (keys : list string) (k : string).

Lemma contains_true m k :
  NameClassMap.__contains__ m k = true ↔ is_Some (_map m !! k).
Proof. unfold NameClassMap.__contains__. apply bool_decide_eq_true. Qed.

Lemma contains_false m k :
  NameClassMap.__contains__ m k = false ↔ _map m !! k = None.
Proof.
  unfold NameClassMap.__contains__.
  rewrite bool_decide_eq_false, eq_None_not_Some. done.
Qed.

(** [find_key] returns the first of the names that is a key. *)
Lemma find_key_Some m keys k :
  NameClassMap.find_key m keys = Some k ↔
  ∃ before after, keys = before ++ k :: after
    ∧ Forall (λ k', _map m !! k' = None) before
    ∧ is_Some (_map m !! k).
Proof.
  induction keys as [|k0 keys IH]; simpl.
  - split; [done|]. intros (before & after & Heq & _).
    by destruct before.
  - destruct (NameClassMap.__contains__ m k0) eqn:Hc.
    + apply contains_true in Hc. split.
      * intros [= <-]. by exists [], keys.
      * intros (before & after & Heq & Hbefore & Hk).
        destruct before as [|b before]; simpl in Heq.
        -- by injection Heq as <- _.
        -- injection Heq as <- _. apply Forall_cons in Hbefore as [Hb _].
           rewrite Hb in Hc. by destruct Hc.
    + apply contains_false in Hc. rewrite IH. split.
      * intros (before & after & -> & Hbefore & Hk).
        exists (k0 :: before), after. by repeat split; [constructor|].
      * intros (before & after & Heq & Hbefore & Hk).
        destruct before as [|b before]; simpl in Heq.
        -- injection Heq as -> _. rewrite Hc in Hk. by destruct Hk.
        -- injection Heq as <- ->. apply Forall_cons in Hbefore as [_ Hb].
           by exists before, after.
Qed.

(** [find_key] returns [None] exactly when none of the names is a key. *)
Lemma find_key_None m keys :
  NameClassMap.find_key m keys = None ↔
  Forall (λ k', _map m !! k' = None) keys.
Proof.
  induction keys as [|k0 keys IH]; simpl; [by split|].
  destruct (NameClassMap.__contains__ m k0) eqn:Hc.
  - apply contains_true in Hc. split; [done|].
    intros [H0 _]%Forall_cons. rewrite H0 in Hc. by destruct Hc.
  - apply contains_false in Hc. rewrite IH, Forall_cons. tauto.
Qed.

(** [find] on names of which none is a key gives the default class. *)
Lemma find_no_key m keys :
  Forall (λ k', _map m !! k' = None) keys →
  NameClassMap.find m keys = Return (_default m).
Proof.
  intros H%find_key_None. unfold NameClassMap.find. by rewrite H.
Qed.

(** [find] gives the class of the first name that is a key, when that
    name is not the empty string. *)
Lemma find_first_key m before k after v :
  Forall (λ k', _map m !! k' = None) before →
  _map m !! k = Some v →
  k ≠ EmptyString →
  NameClassMap.find m (before ++ k :: after) = Return v.
Proof.
  intros Hbefore Hk Hne. unfold NameClassMap.find.
  assert (NameClassMap.find_key m (before ++ k :: after) = Some k) as ->.
  { apply find_key_Some. exists before, after. eauto. }
  unfold NameClassMap.bool_of_str, NameClassMap.__getitem__.
  rewrite bool_decide_eq_false_2 by done. simpl. by rewrite Hk.
Qed.

(** Whatever the names, [find] returns a class: one stored in the map
    or the default class. *)
Lemma find_returns m keys :
  ∃ c, NameClassMap.find m keys = Return c
       ∧ (c = _default m ∨ ∃ k, _map m !! k = Some c).
Proof.
  unfold NameClassMap.find.
  destruct (NameClassMap.find_key m keys) as [k|] eqn:Hk; [|eauto].
  destruct (NameClassMap.bool_of_str k); [|eauto].
  apply find_key_Some in Hk as (_ & _ & _ & _ & [v Hv]).
  unfold NameClassMap.__getitem__. rewrite Hv. eauto.
Qed.

End ResolverFacts.

(** C5: in [m = NameClassMap(RS4); m[EmptyString] = ClsX] the empty
    name is a key, [find_key] returns it for the names [[EmptyString]]
    and its class is [ClsX]; yet [find] on the same names returns the
    default class [RS4].  With a second, later name that is a key too,
    [find] still returns the default class. *)
Theorem find_takes_empty_name_for_no_key :
  NameClassMap.__contains__ empty_name_map EmptyString = true ∧
  NameClassMap.find_key empty_name_map [EmptyString] = Some EmptyString ∧
  NameClassMap.__getitem__ empty_name_map EmptyString = Return ClsX ∧
  NameClassMap.find empty_name_map [EmptyString] = Return RS4 ∧
  (let m := (NameClassMap.__setitem__ s4_issubclass
               empty_name_map "Base" ClsY).2 in
   NameClassMap.find_key m [EmptyString; "Base"] = Some EmptyString ∧
   NameClassMap.find m [EmptyString; "Base"] = Return RS4).
Proof. repeat split; by_evaluation. Qed.

(** ** NameClassMapContext *)

Section ContextFacts.
Context {cls : Type} (issubclass : cls → cls → bool).
Implicit Types (m : NameClassMap cls) (x : NameClassMapContext cls).
Implicit Types (h : heap cls) (r c : loc).

Lemma snapshot_cons m k v items :
  snapshot m ((k, v) :: items)
  = (k, NameClassMap.__contains__ m k, _map m !! k) :: snapshot m items.
Proof. reflexivity. Qed.

Lemma install_cons k v items (t : gmap string cls) :
  install ((k, v) :: items) t = install items (<[k := v]> t).
Proof. reflexivity. Qed.

Lemma undo_cons k (restore : bool) (orig_v : option cls) keep
    (t : gmap string cls) :
  undo ((k, restore, orig_v) :: keep) t
  = undo keep (if restore then
                 match orig_v with Some v => <[k := v]> t | None => t end
               else delete k t).
Proof. by destruct restore, orig_v. Qed.

(** The snapshot only reads the names of the items. *)
Lemma snapshot_insert m k v items :
  k ∉ items.*1 →
  snapshot (mkNameClassMap (_default m) (<[k := v]> (_map m))) items
  = snapshot m items.
Proof.
  intros Hk. unfold snapshot. apply Forall_fmap_ext_1, Forall_forall.
  intros [k' v'] Hin. simpl.
  assert (k ≠ k') as Hne.
  { intros ->. apply Hk. apply (list_elem_of_fmap_2 fst _ _ Hin). }
  unfold NameClassMap.__contains__. simpl. by rewrite lookup_insert_ne.
Qed.

Lemma install_lookup_notin items : ∀ (t : gmap string cls) j,
  j ∉ items.*1 → install items t !! j = t !! j.
Proof.
  induction items as [|[k v] items IH]; intros t j Hj; [done|].
  rewrite fmap_cons, not_elem_of_cons in Hj. destruct Hj as [Hne Hj].
  rewrite install_cons, IH by done. by apply lookup_insert_ne.
Qed.

Lemma install_lookup_mono items : ∀ (t : gmap string cls) j,
  is_Some (t !! j) → is_Some (install items t !! j).
Proof.
  induction items as [|[k v] items IH]; intros t j Hj; [done|].
  rewrite install_cons. apply IH. destruct (decide (k = j)) as [->|Hne].
  - rewrite lookup_insert_eq. eauto.
  - by rewrite lookup_insert_ne.
Qed.

(** Every name of the items is a key once they are installed. *)
Lemma install_lookup_in items : ∀ (t : gmap string cls),
  Forall (λ kv, is_Some (install items t !! kv.1)) items.
Proof.
  induction items as [|[k v] items IH]; intros t; [constructor|].
  rewrite install_cons. constructor; [|apply IH].
  apply install_lookup_mono. simpl. rewrite lookup_insert_eq. eauto.
Qed.

(** Undoing a snapshot of [m] gives every recorded name what it has
    in [m], and leaves the other names alone. *)
Lemma undo_snapshot_lookup m items : ∀ (t : gmap string cls) j,
  undo (snapshot m items) t !! j
  = if decide (j ∈ items.*1) then _map m !! j else t !! j.
Proof.
  induction items as [|[k v] items IH]; intros t j; [done|].
  rewrite snapshot_cons, undo_cons, fmap_cons.
  set (t1 := if NameClassMap.__contains__ m k
             then match _map m !! k with
                  | Some v0 => <[k := v0]> t
                  | None => t
                  end
             else delete k t).
  rewrite IH. simpl.
  assert (Ht1 : t1 !! j = if decide (j = k) then _map m !! k else t !! j).
  { unfold t1. destruct (NameClassMap.__contains__ m k) eqn:Hc.
    - apply contains_true in Hc as [v0 Hv0]. rewrite Hv0.
      destruct (decide (j = k)) as [->|Hne].
      + by rewrite lookup_insert_eq.
      + by rewrite lookup_insert_ne.
    - apply contains_false in Hc. rewrite Hc.
      destruct (decide (j = k)) as [->|Hne].
      + by rewrite lookup_delete_eq.
      + by rewrite lookup_delete_ne. }
  destruct (decide (j ∈ items.*1)) as [Hin|Hnin].
  - rewrite decide_True; [done|]. by right.
  - rewrite Ht1. destruct (decide (j = k)) as [->|Hne].
    + rewrite decide_True; [done|]. by left.
    + rewrite decide_False; [done|]. rewrite not_elem_of_cons. done.
Qed.

(** Undoing the snapshot after installing the items gives back the
    table of which the snapshot was taken. *)
Lemma undo_install m items :
  undo (snapshot m items) (install items (_map m)) = _map m.
Proof.
  apply map_eq. intros j. rewrite undo_snapshot_lookup.
  destruct (decide (j ∈ items.*1)); [done|].
  by apply install_lookup_notin.
Qed.

(** One turn of the loop of [__enter__], when the new class is a
    subclass of the default class. *)
Lemma enter_loop_cons c r k v items h m x :
  ncms h !! r = Some m →
  ctxs h !! c = Some x →
  issubclass v (_default m) = true →
  NameClassMapContext.enter_loop issubclass c r ((k, v) :: items) h =
  NameClassMapContext.enter_loop issubclass c r items
    (mkHeap (<[r := mkNameClassMap (_default m) (<[k := v]> (_map m))]>
               (ncms h))
            (<[c := mkNameClassMapContext (_nameclassmap x) (_d x)
                      (_keep x ++ [(k, NameClassMap.__contains__ m k,
                                    _map m !! k)])]> (ctxs h))).
Proof.
  intros Hm Hx Hsub. simpl.
  unfold bind at 1. unfold read_ncm at 1. rewrite Hm.
  assert (Hentry :
    (if NameClassMap.__contains__ m k
     then bind (read_ncm r (λ m0, NameClassMap.__getitem__ m0 k))
            (λ orig_v : cls, ret (k, true, Some orig_v))
     else ret (k, false, None)) h
    = (Return (k, NameClassMap.__contains__ m k, _map m !! k), h)).
  { destruct (NameClassMap.__contains__ m k) eqn:Hc.
    - apply contains_true in Hc as [v0 Hv0].
      unfold bind, read_ncm, NameClassMap.__getitem__, ret.
      by rewrite Hm, Hv0.
    - apply contains_false in Hc. by rewrite Hc. }
  unfold bind at 1. rewrite Hentry.
  unfold bind at 1.
  unfold NameClassMapContext.keep_append, bind at 1, get_ctx, put_ctx.
  rewrite Hx.
  unfold bind at 1, call_ncm, NameClassMap.__setitem__. simpl.
  by rewrite Hm, Hsub.
Qed.

(** The loop of [__enter__] installs every item and appends the
    snapshot to [_keep]. *)
Lemma enter_loop_spec c r items : ∀ h m x,
  ncms h !! r = Some m →
  ctxs h !! c = Some x →
  NoDup items.*1 →
  Forall (λ kv, issubclass kv.2 (_default m) = true) items →
  NameClassMapContext.enter_loop issubclass c r items h =
    (Return (),
     mkHeap (<[r := mkNameClassMap (_default m) (install items (_map m))]>
               (ncms h))
            (<[c := mkNameClassMapContext (_nameclassmap x) (_d x)
                      (_keep x ++ snapshot m items)]> (ctxs h))).
Proof.
  induction items as [|[k v] items IH]; intros h m x Hm Hx Hnd Hsub.
  - simpl. unfold ret. f_equal. destruct h as [ns cs], m, x; simpl in *.
    rewrite app_nil_r, !insert_id; done.
  - apply Forall_cons in Hsub as [Hv Hsub]. simpl in Hv.
    rewrite fmap_cons in Hnd. apply NoDup_cons in Hnd as [Hk Hnd].
    rewrite (enter_loop_cons c r k v items h m x Hm Hx Hv).
    erewrite IH; [| simpl; apply lookup_insert_eq
                  | simpl; apply lookup_insert_eq | done | done ].
    simpl. rewrite !insert_insert_eq, <- app_assoc. simpl.
    by rewrite (snapshot_insert m k v items Hk).
Qed.

(** One turn of the loop of [__exit__] that puts a class back. *)
Lemma exit_loop_restore r k v keep h m :
  ncms h !! r = Some m →
  issubclass v (_default m) = true →
  NameClassMapContext.exit_loop issubclass r ((k, true, Some v) :: keep) h =
  NameClassMapContext.exit_loop issubclass r keep
    (mkHeap (<[r := mkNameClassMap (_default m) (<[k := v]> (_map m))]>
               (ncms h)) (ctxs h)).
Proof.
  intros Hm Hsub. simpl.
  unfold bind at 1, call_ncm, NameClassMap.__setitem__.
  by rewrite Hm, Hsub.
Qed.

(** One turn of the loop of [__exit__] that removes a key. *)
Lemma exit_loop_remove r k orig_v keep h m :
  ncms h !! r = Some m →
  is_Some (_map m !! k) →
  NameClassMapContext.exit_loop issubclass r ((k, false, orig_v) :: keep) h =
  NameClassMapContext.exit_loop issubclass r keep
    (mkHeap (<[r := mkNameClassMap (_default m) (delete k (_map m))]>
               (ncms h)) (ctxs h)).
Proof.
  intros Hm [v Hv]. simpl.
  unfold bind at 1, call_ncm, NameClassMap.__delitem__.
  by rewrite Hm, Hv.
Qed.

(** The loop of [__exit__] over a snapshot of [m0], run on a map in
    which every recorded name is a key, undoes the snapshot. *)
Lemma exit_loop_snapshot r m0 items : ∀ h m,
  ncms h !! r = Some m →
  _default m = _default m0 →
  NameClassMap.wf issubclass m0 →
  NoDup items.*1 →
  Forall (λ kv, is_Some (_map m !! kv.1)) items →
  NameClassMapContext.exit_loop issubclass r (snapshot m0 items) h =
    (Return (),
     mkHeap (<[r := mkNameClassMap (_default m)
                      (undo (snapshot m0 items) (_map m))]> (ncms h))
            (ctxs h)).
Proof.
  induction items as [|[k v] items IH]; intros h m Hm Hdef Hwf Hnd Hkeys.
  - simpl. unfold ret. destruct h as [ns cs], m; simpl in *.
    by rewrite insert_id.
  - rewrite fmap_cons in Hnd. apply NoDup_cons in Hnd as [Hk Hnd].
    apply Forall_cons in Hkeys as [Hkey Hkeys]. simpl in Hk, Hkey.
    rewrite snapshot_cons.
    destruct (NameClassMap.__contains__ m0 k) eqn:Hc.
    + apply contains_true in Hc as Hc'. destruct Hc' as [v0 Hv0].
      rewrite Hv0.
      rewrite (exit_loop_restore r k v0 _ h m Hm).
      2:{ rewrite Hdef. by apply (Hwf k v0). }
      rewrite undo_cons.
      erewrite IH; [| simpl; apply lookup_insert_eq | done | done | done |].
      * simpl ncms. simpl ctxs. by rewrite insert_insert_eq.
      * simpl. eapply Forall_impl; [exact Hkeys|]. intros [k' v'] Hk'.
        simpl in *. destruct (decide (k = k')) as [->|Hne].
        -- rewrite lookup_insert_eq. eauto.
        -- by rewrite lookup_insert_ne.
    + apply contains_false in Hc as Hc'. rewrite Hc'.
      rewrite (exit_loop_remove r k None _ h m Hm Hkey).
      rewrite undo_cons.
      erewrite IH; [| simpl; apply lookup_insert_eq | done | done | done |].
      * simpl ncms. simpl ctxs. by rewrite insert_insert_eq.
      * simpl. apply Forall_forall. intros [k' v'] Hin. simpl.
        assert (k ≠ k') as Hne.
        { intros ->. apply Hk. apply (list_elem_of_fmap_2 fst _ _ Hin). }
        rewrite lookup_delete_ne by done.
        by apply (proj1 (Forall_forall _ _) Hkeys (k', v')).
Qed.

(** The heap once the context [x] at [c] has been entered on the map
    [m] at [r]. *)
Lemma enter_spec c r h m x :
  ncms h !! r = Some m →
  ctxs h !! c = Some x →
  _nameclassmap x = r →
  NoDup (_d x).*1 →
  Forall (λ kv, issubclass kv.2 (_default m) = true) (_d x) →
  NameClassMapContext.__enter__ issubclass c h =
    (Return (), entered r c m x h).
Proof.
  intros Hm Hx <- Hnd Hsub.
  unfold NameClassMapContext.__enter__, bind at 1, get_ctx.
  rewrite Hx. unfold entered. by apply enter_loop_spec.
Qed.

(** [__exit__], called on the heap [h2] in which the map at [r] and
    the context at [c] are as [__enter__] left them, gives the map its
    table of before [__enter__]. *)
Lemma exit_spec c r h2 m x exc :
  ncms h2 !! r = Some (mkNameClassMap (_default m) (install (_d x) (_map m))) →
  ctxs h2 !! c
    = Some (mkNameClassMapContext r (_d x) (_keep x ++ snapshot m (_d x))) →
  _keep x = [] →
  NameClassMap.wf issubclass m →
  NoDup (_d x).*1 →
  NameClassMapContext.__exit__ issubclass c exc h2 =
    (Return false, mkHeap (<[r := m]> (ncms h2)) (ctxs h2)).
Proof.
  intros Hm Hx Hkeep Hwf Hnd.
  unfold NameClassMapContext.__exit__, bind at 1, get_ctx.
  rewrite Hx, Hkeep. simpl.
  unfold bind.
  erewrite (exit_loop_snapshot r m (_d x) h2); [| exact Hm | done.. |].
  - simpl. unfold ret. rewrite undo_install. by destruct m.
  - simpl. apply install_lookup_in.
Qed.

(** [with c: body], when the body leaves the map at [r] and the
    context at [c] as it found them. *)
Lemma with_spec {A} c r (body : M cls A) h m x :
  ncms h !! r = Some m →
  NameClassMap.wf issubclass m →
  ctxs h !! c = Some x →
  _nameclassmap x = r →
  _keep x = [] →
  NoDup (_d x).*1 →
  Forall (λ kv, issubclass kv.2 (_default m) = true) (_d x) →
  ncms (body (entered r c m x h)).2 !! r = ncms (entered r c m x h) !! r →
  ctxs (body (entered r c m x h)).2 !! c = ctxs (entered r c m x h) !! c →
  NameClassMapContext.with_ issubclass c body h =
    (match (body (entered r c m x h)).1 with
     | Return a => Return (Some a)
     | Raise e => Raise e
     end,
     mkHeap (<[r := m]> (ncms (body (entered r c m x h)).2))
            (ctxs (body (entered r c m x h)).2)).
Proof.
  intros Hm Hwf Hx Hr Hkeep Hnd Hsub Hfr Hfc.
  unfold NameClassMapContext.with_.
  rewrite (enter_spec c r h m x Hm Hx Hr Hnd Hsub).
  destruct (body (entered r c m x h)) as [o h2] eqn:Hbody.
  assert (Hm2 : ncms h2 !! r
    = Some (mkNameClassMap (_default m) (install (_d x) (_map m)))).
  { etrans; [exact Hfr|]. apply lookup_insert_eq. }
  assert (Hx2 : ctxs h2 !! c
    = Some (mkNameClassMapContext r (_d x) (_keep x ++ snapshot m (_d x)))).
  { etrans; [exact Hfc|]. apply lookup_insert_eq. }
  destruct o as [a|e];
    by rewrite (exit_spec c r h2 m x _ Hm2 Hx2 Hkeep Hwf Hnd).
Qed.

(** First use: a context [x] at [c], not entered before, on the map [m] at
    [r], whose items have distinct names and classes derived from the
    default class, around a body that itself leaves the map and the
    context as it found them.  [__enter__] returns and installs the
    items; the outcome of the [with] statement is that of the body,
    value or exception; and afterwards the map at [r] is [m] again,
    table included: names that were keys have their class back, names
    that were not are no keys. *)
Theorem scoped_override_restores_table {A} c r (body : M cls A) h m x :
  ncms h !! r = Some m →
  NameClassMap.wf issubclass m →
  ctxs h !! c = Some x →
  _nameclassmap x = r →
  _keep x = [] →
  NoDup (_d x).*1 →
  Forall (λ kv, issubclass kv.2 (_default m) = true) (_d x) →
  (∀ h1, NameClassMapContext.__enter__ issubclass c h = (Return (), h1) →
         ncms (body h1).2 !! r = ncms h1 !! r
         ∧ ctxs (body h1).2 !! c = ctxs h1 !! c) →
  ∃ h1,
    NameClassMapContext.__enter__ issubclass c h = (Return (), h1)
    ∧ ncms h1 !! r
      = Some (mkNameClassMap (_default m) (install (_d x) (_map m)))
    ∧ (NameClassMapContext.with_ issubclass c body h).1
      = match (body h1).1 with
        | Return a => Return (Some a)
        | Raise e => Raise e
        end
    ∧ ncms (NameClassMapContext.with_ issubclass c body h).2 !! r = Some m.
Proof.
  intros Hm Hwf Hx Hr Hkeep Hnd Hsub Hbody.
  pose proof (enter_spec c r h m x Hm Hx Hr Hnd Hsub) as Henter.
  destruct (Hbody _ Henter) as [Hfr Hfc].
  exists (entered r c m x h). split; [exact Henter|]. split.
  { apply lookup_insert_eq. }
  rewrite (with_spec c r body h m x) by done.
  split; [done|]. apply lookup_insert_eq.
Qed.

Lemma resolve_spec r h m k v :
  ncms h !! r = Some m →
  _map m !! k = Some v →
  k ≠ EmptyString →
  resolve r [k] h = (Return v, h).
Proof.
  intros Hm Hk Hne. unfold resolve, read_ncm. rewrite Hm.
  change [k] with ([] ++ k :: []).
  by rewrite (find_first_key m [] k [] v).
Qed.

Lemma wf_insert m k v :
  NameClassMap.wf issubclass m →
  issubclass v (_default m) = true →
  NameClassMap.wf issubclass (mkNameClassMap (_default m) (<[k := v]> (_map m))).
Proof. intros Hwf Hv. by apply map_Forall_insert_2. Qed.

(** The constructor gives a reference that was not in use. *)
Lemma init_fresh h :
  ctxs h !! fresh (dom (ctxs h)) = None.
Proof. apply not_elem_of_dom, is_fresh. Qed.

(** The inner part of the nesting example, run on a heap where the map
    at [r] has the class [Y] for ["A"]. *)
Lemma inner_override_spec r W Y h m :
  ncms h !! r = Some m →
  NameClassMap.wf issubclass m →
  _map m !! "A" = Some Y →
  issubclass W (_default m) = true →
  (inner_override issubclass r W h).1 = Return (Some W, Y)
  ∧ ncms (inner_override issubclass r W h).2 !! r = Some m
  ∧ ∀ c, is_Some (ctxs h !! c) →
         ctxs (inner_override issubclass r W h).2 !! c = ctxs h !! c.
Proof.
  intros Hm Hwf HA HW.
  set (c := fresh (dom (ctxs h))).
  set (x := mkNameClassMapContext r [("A", W)] []).
  set (h0 := mkHeap (ncms h) (<[c := x]> (ctxs h))).
  set (h1 := entered r c m x h0).
  assert (Hbody : resolve r ["A"] h1 = (Return W, h1)).
  { apply (resolve_spec r h1
             (mkNameClassMap (_default m) (install (_d x) (_map m))) "A" W);
      [apply lookup_insert_eq| |done].
    simpl. apply lookup_insert_eq. }
  assert (Hwith :
    NameClassMapContext.with_ issubclass c (resolve r ["A"]) h0
    = (Return (Some W), mkHeap (<[r := m]> (ncms h1)) (ctxs h1))).
  { rewrite (with_spec c r (resolve r ["A"]) h0 m x); fold h1.
    - by rewrite Hbody.
    - done.
    - done.
    - apply lookup_insert_eq.
    - done.
    - done.
    - apply NoDup_singleton.
    - by apply Forall_singleton.
    - by rewrite Hbody.
    - by rewrite Hbody. }
  assert (Hrun : inner_override issubclass r W h
    = (Return (Some W, Y), mkHeap (<[r := m]> (ncms h1)) (ctxs h1))).
  { unfold inner_override, bind at 1.
    change (NameClassMapContext.__init__ r [("A", W)] h) with (Return c, h0).
    cbv beta iota. unfold bind at 1. rewrite Hwith.
    unfold bind at 1.
    by rewrite (resolve_spec r _ m "A" Y); [| apply lookup_insert_eq | done..]. }
  rewrite Hrun. simpl. split; [done|]. split; [apply lookup_insert_eq|].
  intros c' Hc'. rewrite insert_insert_eq.
  apply lookup_insert_ne. intros <-.
  unfold c in Hc'. rewrite init_fresh in Hc'. by destruct Hc'.
Qed.

(** C2: on a map whose table has the class [X] for ["A"], an outer
    context installs [{"A": Y}] and, inside it, an inner context
    installs [{"A": W}]; the inner one exits first.  [find(["A"])]
    gives [W] inside the inner context, [Y] after the inner exit and
    [X] after the outer exit; no statement raises, and the map ends as
    it started. *)
Theorem nested_overrides_unwind r (X Y W : cls) h m :
  ncms h !! r = Some m →
  NameClassMap.wf issubclass m →
  _map m !! "A" = Some X →
  issubclass Y (_default m) = true →
  issubclass W (_default m) = true →
  (nested_overrides issubclass r Y W h).1 = Return (Some (Some W, Y), X)
  ∧ ncms (nested_overrides issubclass r Y W h).2 !! r = Some m.
Proof.
  intros Hm Hwf HA HY HW.
  set (c := fresh (dom (ctxs h))).
  set (x := mkNameClassMapContext r [("A", Y)] []).
  set (h0 := mkHeap (ncms h) (<[c := x]> (ctxs h))).
  set (h1 := entered r c m x h0).
  set (m1 := mkNameClassMap (_default m) (<["A" := Y]> (_map m))).
  assert (Hm1 : ncms h1 !! r = Some m1) by apply lookup_insert_eq.
  destruct (inner_override_spec r W Y h1 m1 Hm1) as (Hres & Hmap & Hctx).
  { by apply wf_insert. }
  { apply lookup_insert_eq. }
  { done. }
  assert (Hwith :
    NameClassMapContext.with_ issubclass c (inner_override issubclass r W) h0
    = (Return (Some (Some W, Y)),
       mkHeap (<[r := m]> (ncms (inner_override issubclass r W h1).2))
              (ctxs (inner_override issubclass r W h1).2))).
  { rewrite (with_spec c r (inner_override issubclass r W) h0 m x); fold h1.
    - by rewrite Hres.
    - done.
    - done.
    - apply lookup_insert_eq.
    - done.
    - done.
    - apply NoDup_singleton.
    - by apply Forall_singleton.
    - by rewrite Hmap.
    - apply Hctx. unfold h1, entered. simpl. rewrite lookup_insert_eq. eauto. }
  assert (Hrun : nested_overrides issubclass r Y W h
    = (Return (Some (Some W, Y), X),
       mkHeap (<[r := m]> (ncms (inner_override issubclass r W h1).2))
              (ctxs (inner_override issubclass r W h1).2))).
  { unfold nested_overrides, bind at 1.
    change (NameClassMapContext.__init__ r [("A", Y)] h) with (Return c, h0).
    cbv beta iota. unfold bind at 1. rewrite Hwith.
    unfold bind at 1.
    by rewrite (resolve_spec r _ m "A" X); [| apply lookup_insert_eq | done..]. }
  rewrite Hrun. split; [done|]. apply lookup_insert_eq.
Qed.

End ContextFacts.

(** Witness: the table [{"A": ClsX}], the override
    [{"A": ClsY, "B": ClsZ}] and a body that raises.  The exception
    leaves the [with] statement and the table is [{"A": ClsX}]
    again. *)
Lemma scoped_override_restores_table_witness :
  let body : M s4cls unit := raise (UserError "body") in
  ncms override_heap !! 0%nat = Some override_map
  ∧ NameClassMap.wf s4_issubclass override_map
  ∧ ctxs override_heap !! 1%nat = Some override_ctx
  ∧ NoDup (_d override_ctx).*1
  ∧ Forall (λ kv, s4_issubclass kv.2 (_default override_map) = true)
      (_d override_ctx)
  ∧ ∃ h1,
      NameClassMapContext.__enter__ s4_issubclass 1%nat override_heap
      = (Return (), h1)
      ∧ ncms h1 !! 0%nat
        = Some (mkNameClassMap (_default override_map)
                  (install (_d override_ctx) (_map override_map)))
      ∧ (NameClassMapContext.with_ s4_issubclass 1%nat body override_heap).1
        = match (body h1).1 with
          | Return a => Return (Some a)
          | Raise e => Raise e
          end
      ∧ ncms (NameClassMapContext.with_ s4_issubclass 1%nat body
                override_heap).2 !! 0%nat = Some override_map.
Proof.
  intros body.
  assert (H1 : ncms override_heap !! 0%nat = Some override_map)
    by reflexivity.
  assert (H2 : NameClassMap.wf s4_issubclass override_map)
    by (unfold NameClassMap.wf; by_evaluation).
  assert (H3 : ctxs override_heap !! 1%nat = Some override_ctx)
    by reflexivity.
  assert (H4 : NoDup (_d override_ctx).*1) by by_evaluation.
  assert (H5 : Forall (λ kv, s4_issubclass kv.2 (_default override_map) = true)
                 (_d override_ctx)) by by_evaluation.
  split; [exact H1|]. split; [exact H2|]. split; [exact H3|].
  split; [exact H4|]. split; [exact H5|].
  apply (scoped_override_restores_table s4_issubclass 1%nat 0%nat body
           override_heap override_map override_ctx H1 H2 H3
           eq_refl eq_refl H4 H5).
  intros h1 _. split; reflexivity.
Defined.

(** C2, witness: the table [{"A": ClsX}] with [Y = ClsY] and
    [W = ClsW]. *)
Lemma nested_overrides_unwind_witness :
  let h := mkHeap {[ 0%nat := override_map ]} ∅ in
  ncms h !! 0%nat = Some override_map
  ∧ NameClassMap.wf s4_issubclass override_map
  ∧ _map override_map !! "A" = Some ClsX
  ∧ s4_issubclass ClsY (_default override_map) = true
  ∧ s4_issubclass ClsW (_default override_map) = true
  ∧ (nested_overrides s4_issubclass 0%nat ClsY ClsW h).1
    = Return (Some (Some ClsW, ClsY), ClsX)
  ∧ ncms (nested_overrides s4_issubclass 0%nat ClsY ClsW h).2 !! 0%nat
    = Some override_map.
Proof.
  intros h.
  assert (H1 : ncms h !! 0%nat = Some override_map) by reflexivity.
  assert (H2 : NameClassMap.wf s4_issubclass override_map)
    by (unfold NameClassMap.wf; by_evaluation).
  assert (H3 : _map override_map !! "A" = Some ClsX) by reflexivity.
  assert (H4 : s4_issubclass ClsY (_default override_map) = true)
    by reflexivity.
  assert (H5 : s4_issubclass ClsW (_default override_map) = true)
    by reflexivity.
  split; [exact H1|]. split; [exact H2|]. split; [exact H3|].
  split; [exact H4|]. split; [exact H5|].
  exact (nested_overrides_unwind s4_issubclass 0%nat ClsX ClsY ClsW h
           override_map H1 H2 H3 H4 H5).
Defined.

(** C1: [ncm = NameClassMap(RS4)] and
    [ctx = NameClassMapContext(ncm, {"A": ClsY, "B": ClsZ})]; after
    [with ctx: pass] and [ncm["B"] = ClsX] the table is
    [{"B": ClsX}].  A second [with ctx: pass], opened on that table,
    does not give it back: [__exit__] runs through the entries kept
    from the first use as well, raises [KeyError("A")], and leaves the
    table empty, so that the class of ["B"] is lost. *)
Theorem reused_override_loses_table :
  (first_use_then_register fresh_map_heap).1 = Return 0%nat
  ∧ ncms second_entry_heap !! 0%nat
    = Some (mkNameClassMap RS4 {[ "B" := ClsX ]})
  ∧ _keep <$> ctxs second_entry_heap !! 0%nat
    = Some [("A", false, None); ("B", false, None)]
  ∧ (NameClassMapContext.with_ s4_issubclass 0%nat (ret ())
       second_entry_heap).1 = Raise (KeyError "A")
  ∧ ncms (NameClassMapContext.with_ s4_issubclass 0%nat (ret ())
            second_entry_heap).2 !! 0%nat
    = Some (mkNameClassMap RS4 ∅)
  ∧ _keep <$> ctxs (NameClassMapContext.with_ s4_issubclass 0%nat (ret ())
                      second_entry_heap).2 !! 0%nat
    = Some [("A", false, None); ("B", false, None);
            ("A", false, None); ("B", true, Some ClsX)].
Proof. repeat split; vm_compute; reflexivity. Qed.

(** C9: [ctx = NameClassMapContext(ncm, {"B": ClsZ})] on the empty map
    [ncm = NameClassMap(RS4)].  After [with ctx: pass] the list
    [ctx._keep] still holds the entry recorded at entry, and a second
    [with ctx: pass] raises [KeyError("B")] from [__exit__], which
    runs through two entries. *)
Theorem keep_survives_exit :
  (keep_after_first_use fresh_map_heap).1 = Return [("B", false, None)]
  ∧ (second_use fresh_map_heap).1 = Raise (KeyError "B")
  ∧ _keep <$> ctxs (second_use fresh_map_heap).2 !! 0%nat
    = Some [("B", false, None); ("B", false, None)].
Proof. repeat split; vm_compute; reflexivity. Qed.

(** ** The classes in a map derive from its default class *)

Section InvariantFacts.
Context {cls : Type} (issubclass : cls → cls → bool).
Implicit Types (m : NameClassMap cls) (h : heap cls) (r c : loc).

Lemma wf_init (defaultcls : cls) :
  NameClassMap.wf issubclass (NameClassMap.__init__ defaultcls).
Proof. apply map_Forall_empty. Qed.

Lemma setitem_rejects m k v :
  issubclass v (_default m) = false →
  NameClassMap.__setitem__ issubclass m k v = (Raise AssertionError, m).
Proof. intros H. unfold NameClassMap.__setitem__. by rewrite H. Qed.

Lemma wf_setitem m k v :
  NameClassMap.wf issubclass m →
  NameClassMap.wf issubclass (NameClassMap.__setitem__ issubclass m k v).2.
Proof.
  intros Hwf. unfold NameClassMap.__setitem__.
  destruct (issubclass v (_default m)) eqn:Hv; [|done].
  by apply map_Forall_insert_2.
Qed.

Lemma wf_delitem m k :
  NameClassMap.wf issubclass m →
  NameClassMap.wf issubclass (NameClassMap.__delitem__ m k).2.
Proof.
  intros Hwf. unfold NameClassMap.__delitem__.
  destruct (_map m !! k); [|done].
  by apply map_Forall_delete.
Qed.

(** [find] returns, and what it returns derives from the default
    class. *)
Lemma find_subclass m keys :
  issubclass (_default m) (_default m) = true →
  NameClassMap.wf issubclass m →
  ∃ cl, NameClassMap.find m keys = Return cl
        ∧ issubclass cl (_default m) = true.
Proof.
  intros Hrefl Hwf.
  destruct (find_returns m keys) as (cl & Hc & [->|[k Hk]]); eauto.
Qed.

Lemma preserves_ret {A} (a : A) : preserves issubclass (ret a).
Proof. by intros h Hh. Qed.

Lemma preserves_raise {A} e : preserves issubclass (raise (A := A) e).
Proof. by intros h Hh. Qed.

Lemma preserves_bind {A B} (p : M cls A) (k : A → M cls B) :
  preserves issubclass p →
  (∀ a, preserves issubclass (k a)) →
  preserves issubclass (bind p k).
Proof.
  intros Hp Hk h Hh. unfold bind. specialize (Hp h Hh).
  destruct (p h) as [[a|e] h']; simpl in *; [by apply Hk|done].
Qed.

Lemma preserves_get_ctx c : preserves issubclass (get_ctx c).
Proof. intros h Hh. unfold get_ctx. by destruct (ctxs h !! c). Qed.

Lemma preserves_put_ctx c x : preserves issubclass (put_ctx c x).
Proof. by intros h Hh. Qed.

Lemma preserves_read {A} r (method : NameClassMap cls → outcome A) :
  preserves issubclass (read_ncm r method).
Proof. intros h Hh. unfold read_ncm. by destruct (ncms h !! r). Qed.

Lemma preserves_call {A} r
    (method : NameClassMap cls → outcome A * NameClassMap cls) :
  (∀ m, NameClassMap.wf issubclass m →
        NameClassMap.wf issubclass (method m).2) →
  preserves issubclass (call_ncm r method).
Proof.
  intros Hmethod h Hh. unfold call_ncm.
  destruct (ncms h !! r) as [m|] eqn:Hm; [|done].
  specialize (Hmethod m (Hh r m Hm)).
  destruct (method m) as [o m']. simpl in *.
  by apply map_Forall_insert_2.
Qed.

Lemma preserves_enter_loop c r items :
  preserves issubclass (NameClassMapContext.enter_loop issubclass c r items).
Proof.
  induction items as [|[k v] items IH]; simpl; [apply preserves_ret|].
  apply preserves_bind; [apply preserves_read|]. intros present.
  apply preserves_bind.
  { destruct present; [|apply preserves_ret].
    apply preserves_bind; [apply preserves_read|].
    intros orig_v. apply preserves_ret. }
  intros entry. apply preserves_bind.
  { apply preserves_bind; [apply preserves_get_ctx|].
    intros x. apply preserves_put_ctx. }
  intros _. apply preserves_bind; [|by intros _].
  apply preserves_call. intros m. apply wf_setitem.
Qed.

Lemma preserves_enter c :
  preserves issubclass (NameClassMapContext.__enter__ issubclass c).
Proof.
  apply preserves_bind; [apply preserves_get_ctx|].
  intros x. apply preserves_enter_loop.
Qed.

Lemma preserves_exit_loop r keep :
  preserves issubclass (NameClassMapContext.exit_loop issubclass r keep).
Proof.
  induction keep as [|[[k restore] orig_v] keep IH]; simpl;
    [apply preserves_ret|].
  apply preserves_bind; [|by intros _].
  destruct restore.
  - destruct orig_v as [v|]; [|apply preserves_raise].
    apply preserves_call. intros m. apply wf_setitem.
  - apply preserves_call. intros m. apply wf_delitem.
Qed.

Lemma preserves_exit c exc :
  preserves issubclass (NameClassMapContext.__exit__ issubclass c exc).
Proof.
  apply preserves_bind; [apply preserves_get_ctx|].
  intros x. apply preserves_bind; [apply preserves_exit_loop|].
  intros _. apply preserves_ret.
Qed.

Lemma preserves_with {A} c (body : M cls A) :
  preserves issubclass body →
  preserves issubclass (NameClassMapContext.with_ issubclass c body).
Proof.
  intros Hbody h Hh. unfold NameClassMapContext.with_.
  pose proof (preserves_enter c h Hh) as H1.
  destruct (NameClassMapContext.__enter__ issubclass c h) as [[[]|e] h1];
    simpl in H1; [|done].
  pose proof (Hbody h1 H1) as H2.
  destruct (body h1) as [[a|e] h2]; simpl in H2.
  - pose proof (preserves_exit c None h2 H2) as H3.
    by destruct (NameClassMapContext.__exit__ issubclass c None h2)
      as [[b|e'] h3].
  - pose proof (preserves_exit c (Some e) h2 H2) as H3.
    by destruct (NameClassMapContext.__exit__ issubclass c (Some e) h2)
      as [[[]|e'] h3].
Qed.

(** C10: [__setitem__] raises [AssertionError], and leaves the map as
    it is, for a class that does not derive from the default class;
    a new map holds subclasses of its default class only, and
    [__setitem__], [__delitem__], and the [__enter__] and [__exit__]
    of a context (whatever their outcome) keep it so, for every map on
    the heap; hence [find] always returns a subclass of the default
    class.  [issubclass] is taken to hold between a class and
    itself. *)
Theorem stored_classes_derive_from_default :
  (∀ cl : cls, issubclass cl cl = true) →
  (∀ m k v, issubclass v (_default m) = false →
     NameClassMap.__setitem__ issubclass m k v = (Raise AssertionError, m))
  ∧ (∀ defaultcls,
       NameClassMap.wf issubclass (NameClassMap.__init__ defaultcls))
  ∧ (∀ m k v, NameClassMap.wf issubclass m →
       NameClassMap.wf issubclass
         (NameClassMap.__setitem__ issubclass m k v).2)
  ∧ (∀ m k, NameClassMap.wf issubclass m →
       NameClassMap.wf issubclass (NameClassMap.__delitem__ m k).2)
  ∧ (∀ c h, heap_wf issubclass h →
       heap_wf issubclass (NameClassMapContext.__enter__ issubclass c h).2)
  ∧ (∀ c exc h, heap_wf issubclass h →
       heap_wf issubclass
         (NameClassMapContext.__exit__ issubclass c exc h).2)
  ∧ (∀ m keys, NameClassMap.wf issubclass m →
       ∃ cl, NameClassMap.find m keys = Return cl
             ∧ issubclass cl (_default m) = true).
Proof.
  intros Hrefl. split; [apply setitem_rejects|].
  split; [apply wf_init|]. split; [apply wf_setitem|].
  split; [apply wf_delitem|]. split; [apply preserves_enter|].
  split; [apply preserves_exit|].
  intros m keys Hwf. by apply find_subclass.
Qed.

End InvariantFacts.

(** C10, witness: with the example classes, [find] on the table
    [{"A": ClsX}] returns a subclass of [RS4]. *)
Lemma stored_classes_derive_from_default_witness :
  (∀ c0, s4_issubclass c0 c0 = true)
  ∧ NameClassMap.wf s4_issubclass override_map
  ∧ ∃ c0, NameClassMap.find override_map ["B"; "A"] = Return c0
          ∧ s4_issubclass c0 (_default override_map) = true.
Proof.
  assert (H1 : ∀ c0, s4_issubclass c0 c0 = true) by (by intros []).
  assert (H2 : NameClassMap.wf s4_issubclass override_map)
    by (unfold NameClassMap.wf; by_evaluation).
  split; [exact H1|]. split; [exact H2|].
  exact (proj2 (proj2 (proj2 (proj2 (proj2 (proj2
           (stored_classes_derive_from_default s4_issubclass H1))))))
           override_map ["B"; "A"] H2).
Defined.

(** ** Conversion of objects without a conversion function of their own *)

(** C6: once the module is loaded, the function registered for
    [object] is the second one, [_], which returns its argument; an R
    symbol, which has no conversion function of its own, is dispatched
    to it and comes back as it is, while [_rpy2py_object], registered
    for [object] first, would have wrapped it in [RObject]. *)
Theorem object_fallback_returns_value_unwrapped
    (POSIXct_isrinstance : Sexp → bool)
    (extends : list string → list string) (h : heap s4cls) :
  let converter := default_converter POSIXct_isrinstance extends in
  conversion.dispatch converter [ty_named "SexpSymbol"; ty_Sexp] = None
  ∧ conversion.registered converter ty_object = Some rpy2py_underscore
  ∧ conversion.rpy2py converter symbol_sexp h = (Return (Asis symbol_sexp), h)
  ∧ _rpy2py_object symbol_sexp h
    = (Return (New (Robjects RObject) symbol_sexp), h).
Proof. repeat split. Qed.

(** * Further properties *)

(** ** NameClassMap: items *)

Section MapItemFacts.
Context {cls : Type} (issubclass : cls → cls → bool).
Implicit Types (m : NameClassMap cls) (k : string).

(** [m[k] = v] with a subclass of the default class returns; after it
    [k in m] holds, [m[k]] is [v], the default class is the same and
    every other name has what it had. *)
Theorem setitem_then_getitem m k (v : cls) :
  issubclass v (_default m) = true →
  ∃ m', NameClassMap.__setitem__ issubclass m k v = (Return (), m')
    ∧ NameClassMap.__contains__ m' k = true
    ∧ NameClassMap.__getitem__ m' k = Return v
    ∧ _default m' = _default m
    ∧ ∀ k', k' ≠ k →
        NameClassMap.__contains__ m' k' = NameClassMap.__contains__ m k'
        ∧ NameClassMap.__getitem__ m' k' = NameClassMap.__getitem__ m k'.
Proof.
  intros Hv. unfold NameClassMap.__setitem__. rewrite Hv.
  eexists. split; [reflexivity|].
  unfold NameClassMap.__contains__, NameClassMap.__getitem__. simpl.
  rewrite lookup_insert_eq. split; [by apply bool_decide_eq_true_2|].
  split; [done|]. split; [done|].
  intros k' Hne. by rewrite lookup_insert_ne.
Qed.

(** [del m[k]] raises [KeyError(k)] and leaves the map as it is when
    [k] is no key; otherwise it returns, [k] is no key any more,
    [m[k]] raises [KeyError(k)], and every other name has what it
    had. *)
Theorem delitem_removes_one_key m k :
  (NameClassMap.__contains__ m k = false →
     NameClassMap.__delitem__ m k = (Raise (KeyError k), m))
  ∧ (NameClassMap.__contains__ m k = true →
     ∃ m', NameClassMap.__delitem__ m k = (Return (), m')
       ∧ NameClassMap.__contains__ m' k = false
       ∧ NameClassMap.__getitem__ m' k = Raise (KeyError k)
       ∧ _default m' = _default m
       ∧ ∀ k', k' ≠ k →
           NameClassMap.__getitem__ m' k' = NameClassMap.__getitem__ m k').
Proof.
  unfold NameClassMap.__delitem__. split.
  - intros Hc%contains_false. by rewrite Hc.
  - intros [v Hv]%contains_true. rewrite Hv.
    eexists. split; [reflexivity|].
    unfold NameClassMap.__contains__, NameClassMap.__getitem__. simpl.
    rewrite lookup_delete_eq. split.
    { apply bool_decide_eq_false_2. by intros [? ?]. }
    split; [done|]. split; [done|].
    intros k' Hne. by rewrite lookup_delete_ne.
Qed.

(** For a name that is no key, [m[k] = v] followed by [del m[k]] gives
    back the map as it was. *)
Theorem setitem_then_delitem m k (v : cls) :
  NameClassMap.__contains__ m k = false →
  issubclass v (_default m) = true →
  ∃ m1, NameClassMap.__setitem__ issubclass m k v = (Return (), m1)
    ∧ NameClassMap.__delitem__ m1 k = (Return (), m).
Proof.
  intros Hc%contains_false Hv.
  unfold NameClassMap.__setitem__. rewrite Hv.
  eexists. split; [reflexivity|].
  unfold NameClassMap.__delitem__. simpl. rewrite lookup_insert_eq.
  rewrite delete_insert_id by done. by destruct m.
Qed.

(** [find_key] returns a name exactly when that name is the first of
    the sequence that is a key, and [None] exactly when no name of the
    sequence is a key. *)
Theorem find_key_first_key m (keys : list string) :
  (∀ k, NameClassMap.find_key m keys = Some k ↔
        ∃ before after, keys = before ++ k :: after
          ∧ Forall (λ k', NameClassMap.__contains__ m k' = false) before
          ∧ NameClassMap.__contains__ m k = true)
  ∧ (NameClassMap.find_key m keys = None ↔
     Forall (λ k', NameClassMap.__contains__ m k' = false) keys).
Proof.
  split.
  - intros k. rewrite find_key_Some.
    split; intros (before & after & Heq & Hbefore & Hk);
      exists before, after; (split; [done|]); split.
    + eapply Forall_impl; [exact Hbefore|]. intros k'. apply contains_false.
    + by apply contains_true.
    + eapply Forall_impl; [exact Hbefore|]. intros k'. apply contains_false.
    + by apply contains_true.
  - rewrite find_key_None. split; intros H;
      (eapply Forall_impl; [exact H|]); intros k'; apply contains_false.
Qed.

(** [find] returns the class of the first name of the sequence that is
    a key, when that name is not the empty string. *)
Theorem find_first_nonempty_key m (before after : list string) k (v : cls) :
  Forall (λ k', NameClassMap.__contains__ m k' = false) before →
  NameClassMap.__getitem__ m k = Return v →
  k ≠ EmptyString →
  NameClassMap.find m (before ++ k :: after) = Return v.
Proof.
  intros Hbefore Hget Hne. apply find_first_key; [|  |done].
  - eapply Forall_impl; [exact Hbefore|]. intros k'. apply contains_false.
  - unfold NameClassMap.__getitem__ in Hget.
    destruct (_map m !! k); [by injection Hget as ->|done].
Qed.

(** [find] returns the default class when no name of the sequence is a
    key; in particular for the empty sequence and for a new map. *)
Theorem find_default_without_key m (keys : list string) :
  Forall (λ k', NameClassMap.__contains__ m k' = false) keys →
  NameClassMap.find m keys = Return (_default m).
Proof.
  intros H. apply find_no_key.
  eapply Forall_impl; [exact H|]. intros k'. apply contains_false.
Qed.

End MapItemFacts.

(** Witness: on the table [{"A": ClsX}], [m["B"] = ClsY] makes
    [m["B"]] be [ClsY] and leaves [m["A"]] at [ClsX]. *)
Lemma setitem_then_getitem_witness :
  s4_issubclass ClsY (_default override_map) = true
  ∧ ∃ m', NameClassMap.__setitem__ s4_issubclass override_map "B" ClsY
          = (Return (), m')
    ∧ NameClassMap.__getitem__ m' "B" = Return ClsY
    ∧ NameClassMap.__getitem__ m' "A" = Return ClsX.
Proof.
  assert (H1 : s4_issubclass ClsY (_default override_map) = true)
    by reflexivity.
  split; [exact H1|].
  destruct (setitem_then_getitem s4_issubclass override_map "B" ClsY H1)
    as (m' & Hset & _ & Hget & _ & Hothers).
  exists m'. split; [exact Hset|]. split; [exact Hget|].
  rewrite (proj2 (Hothers "A" ltac:(discriminate))). reflexivity.
Defined.

(** Witness: on the table [{"A": ClsX}], [m["B"] = ClsZ] and then [del
    m["B"]] give the table back. *)
Lemma setitem_then_delitem_witness :
  NameClassMap.__contains__ override_map "B" = false
  ∧ s4_issubclass ClsZ (_default override_map) = true
  ∧ ∃ m1, NameClassMap.__setitem__ s4_issubclass override_map "B" ClsZ
          = (Return (), m1)
    ∧ NameClassMap.__delitem__ m1 "B" = (Return (), override_map).
Proof.
  assert (H1 : NameClassMap.__contains__ override_map "B" = false)
    by reflexivity.
  assert (H2 : s4_issubclass ClsZ (_default override_map) = true)
    by reflexivity.
  split; [exact H1|]. split; [exact H2|].
  exact (setitem_then_delitem s4_issubclass override_map "B" ClsZ H1 H2).
Defined.

(** Witness: on the table [{"A": ClsX}], the names ["Derived"], ["A"],
    ["B"] resolve to [ClsX]. *)
Lemma find_first_nonempty_key_witness :
  Forall (λ k', NameClassMap.__contains__ override_map k' = false)
    ["Derived"]
  ∧ NameClassMap.__getitem__ override_map "A" = Return ClsX
  ∧ "A" ≠ EmptyString
  ∧ NameClassMap.find override_map ["Derived"; "A"; "B"] = Return ClsX.
Proof.
  assert (H1 : Forall (λ k', NameClassMap.__contains__ override_map k' = false)
                 ["Derived"]) by by_evaluation.
  assert (H2 : NameClassMap.__getitem__ override_map "A" = Return ClsX)
    by reflexivity.
  assert (H3 : "A" ≠ EmptyString) by discriminate.
  split; [exact H1|]. split; [exact H2|]. split; [exact H3|].
  exact (find_first_nonempty_key override_map ["Derived"] ["B"] "A" ClsX
           H1 H2 H3).
Defined.

(** Witness: on the table [{"A": ClsX}], the names ["Derived"],
    ["Base"] resolve to the default class [RS4]. *)
Lemma find_default_without_key_witness :
  Forall (λ k', NameClassMap.__contains__ override_map k' = false)
    ["Derived"; "Base"]
  ∧ NameClassMap.find override_map ["Derived"; "Base"] = Return RS4.
Proof.
  assert (H1 : Forall (λ k', NameClassMap.__contains__ override_map k' = false)
                 ["Derived"; "Base"]) by by_evaluation.
  split; [exact H1|].
  exact (find_default_without_key override_map ["Derived"; "Base"] H1).
Defined.

(** ** NameClassMapContext: inside the scope, and when entry fails *)

Section ScopeFacts.
Context {cls : Type} (issubclass : cls → cls → bool).
Implicit Types (m : NameClassMap cls) (x : NameClassMapContext cls).
Implicit Types (h : heap cls) (r c : loc).

Lemma install_lookup_elem (items : list (string * cls)) :
  ∀ (t : gmap string cls) k v,
    NoDup items.*1 → (k, v) ∈ items → install items t !! k = Some v.
Proof.
  induction items as [|[k0 v0] items IH]; intros t k v Hnd Hin.
  - by apply elem_of_nil in Hin.
  - rewrite fmap_cons in Hnd. apply NoDup_cons in Hnd as [Hk0 Hnd].
    rewrite install_cons. apply elem_of_cons in Hin as [[= -> ->]|Hin].
    + rewrite install_lookup_notin by done. apply lookup_insert_eq.
    + by apply IH.
Qed.

(** [__enter__] returns when the items of the context have distinct
    names and classes derived from the default class.  From then on
    every name of the items is mapped to the class given for it, every
    other name has what it had, and [_keep] has grown by one entry per
    item, in the order of the items: the name, whether it was a key,
    and the class it had. *)
Theorem enter_installs_overrides c r h m x :
  ncms h !! r = Some m →
  ctxs h !! c = Some x →
  _nameclassmap x = r →
  NoDup (_d x).*1 →
  Forall (λ kv, issubclass kv.2 (_default m) = true) (_d x) →
  ∃ h1 m1 x1,
    NameClassMapContext.__enter__ issubclass c h = (Return (), h1)
    ∧ ncms h1 !! r = Some m1
    ∧ ctxs h1 !! c = Some x1
    ∧ _default m1 = _default m
    ∧ (∀ k v, (k, v) ∈ _d x → NameClassMap.__getitem__ m1 k = Return v)
    ∧ (∀ k, k ∉ (_d x).*1 → _map m1 !! k = _map m !! k)
    ∧ _d x1 = _d x
    ∧ _keep x1
      = _keep x
        ++ ((λ kv, (kv.1, NameClassMap.__contains__ m kv.1, _map m !! kv.1))
              <$> _d x).
Proof.
  intros Hm Hx Hr Hnd Hsub.
  exists (entered r c m x h). eexists. eexists.
  split; [by apply enter_spec|].
  split; [apply lookup_insert_eq|]. split; [apply lookup_insert_eq|].
  simpl. split; [done|]. split.
  { intros k v Hin. unfold NameClassMap.__getitem__. simpl.
    by rewrite (install_lookup_elem (_d x) (_map m) k v Hnd Hin). }
  split; [|done].
  intros k Hk. by apply install_lookup_notin.
Qed.

(** The loop of [__enter__] on items of which one, after valid ones,
    has a class that does not derive from the default class. *)
Lemma enter_loop_invalid c r k (v : cls) post pre : ∀ h m x,
  ncms h !! r = Some m →
  ctxs h !! c = Some x →
  NoDup (pre ++ [(k, v)]).*1 →
  Forall (λ kv, issubclass kv.2 (_default m) = true) pre →
  issubclass v (_default m) = false →
  NameClassMapContext.enter_loop issubclass c r (pre ++ (k, v) :: post) h =
    (Raise AssertionError,
     mkHeap (<[r := mkNameClassMap (_default m) (install pre (_map m))]>
               (ncms h))
            (<[c := mkNameClassMapContext (_nameclassmap x) (_d x)
                      (_keep x ++ snapshot m (pre ++ [(k, v)]))]> (ctxs h))).
Proof.
  induction pre as [|[k0 v0] pre IH]; intros h m x Hm Hx Hnd Hsub Hv.
  - simpl.
    unfold bind at 1. unfold read_ncm at 1. rewrite Hm.
    assert (Hentry :
      (if NameClassMap.__contains__ m k
       then bind (read_ncm r (λ m0, NameClassMap.__getitem__ m0 k))
              (λ orig_v : cls, ret (k, true, Some orig_v))
       else ret (k, false, None)) h
      = (Return (k, NameClassMap.__contains__ m k, _map m !! k), h)).
    { destruct (NameClassMap.__contains__ m k) eqn:Hc.
      - apply contains_true in Hc as [v1 Hv1].
        unfold bind, read_ncm, NameClassMap.__getitem__, ret.
        by rewrite Hm, Hv1.
      - apply contains_false in Hc. by rewrite Hc. }
    unfold bind at 1. rewrite Hentry.
    unfold bind at 1.
    unfold NameClassMapContext.keep_append, bind at 1, get_ctx, put_ctx.
    rewrite Hx.
    unfold bind at 1, call_ncm, NameClassMap.__setitem__. simpl.
    rewrite Hm, Hv. by destruct m.
  - apply Forall_cons in Hsub as [Hv0 Hsub]. simpl in Hv0.
    simpl in Hnd. apply NoDup_cons in Hnd as [Hk0 Hnd].
    change (((k0, v0) :: pre) ++ (k, v) :: post)
      with ((k0, v0) :: (pre ++ (k, v) :: post)).
    rewrite (enter_loop_cons issubclass c r k0 v0 _ h m x Hm Hx Hv0).
    erewrite IH; [| simpl; apply lookup_insert_eq
                  | simpl; apply lookup_insert_eq | done | done | done ].
    simpl. rewrite !insert_insert_eq, <- app_assoc. simpl.
    by rewrite (snapshot_insert m k0 v0 (pre ++ [(k, v)]) Hk0).
Qed.

(** When an item of the context has a class that does not derive from
    the default class, the [with] statement raises [AssertionError]
    whatever its body is, and nothing is undone: the items that come
    before it stay installed, and the other names have what they
    had. *)
Theorem enter_fails_without_rollback {A} c r (body : M cls A) h m x
    pre k (v : cls) post :
  ncms h !! r = Some m →
  ctxs h !! c = Some x →
  _nameclassmap x = r →
  _d x = pre ++ (k, v) :: post →
  NoDup (_d x).*1 →
  Forall (λ kv, issubclass kv.2 (_default m) = true) pre →
  issubclass v (_default m) = false →
  ∃ h1 m1,
    NameClassMapContext.with_ issubclass c body h = (Raise AssertionError, h1)
    ∧ ncms h1 !! r = Some m1
    ∧ (∀ k' v', (k', v') ∈ pre →
         NameClassMap.__getitem__ m1 k' = Return v')
    ∧ (∀ k', k' ∉ pre.*1 → _map m1 !! k' = _map m !! k').
Proof.
  intros Hm Hx <- Hd Hnd Hsub Hv.
  assert (Hnd' : NoDup (pre ++ [(k, v)]).*1).
  { rewrite Hd in Hnd. rewrite fmap_app in Hnd |- *.
    apply NoDup_app in Hnd as (Hn1 & Hn2 & Hn3).
    apply NoDup_app. split; [done|]. split.
    - intros k' Hk' Hin. apply (Hn2 k' Hk').
      simpl in Hin |- *. apply list_elem_of_singleton in Hin as ->. by left.
    - apply NoDup_singleton. }
  assert (Hnd1 : NoDup pre.*1).
  { rewrite fmap_app in Hnd'. by apply NoDup_app in Hnd' as (? & _). }
  eexists. eexists. split.
  { unfold NameClassMapContext.with_, NameClassMapContext.__enter__.
    unfold bind at 1, get_ctx. rewrite Hx, Hd.
    by rewrite (enter_loop_invalid c (_nameclassmap x) k v post pre h m x). }
  split; [apply lookup_insert_eq|]. split.
  - intros k' v' Hin. unfold NameClassMap.__getitem__. simpl.
    by rewrite (install_lookup_elem pre (_map m) k' v' Hnd1 Hin).
  - intros k' Hk'. by apply install_lookup_notin.
Qed.

(** [__exit__] returns [False] when it returns. *)
Lemma exit_returns_false c exc h b :
  (NameClassMapContext.__exit__ issubclass c exc h).1 = Return b → b = false.
Proof.
  unfold NameClassMapContext.__exit__, bind, get_ctx, ret.
  destruct (ctxs h !! c) as [x|]; [|done].
  destruct (NameClassMapContext.exit_loop issubclass (_nameclassmap x)
              (_keep x) h) as [[[]|e] h']; simpl; [|done].
  by intros [= <-].
Qed.

(** A [with] statement on a context never turns an exception of its
    body into a normal return: it returns only when [__enter__], the
    body and [__exit__] all return, with the value of the body, and it
    raises whenever the body raises. *)
Theorem with_never_suppresses {A} c (body : M cls A) h :
  (NameClassMapContext.with_ issubclass c body h).1 ≠ Return None
  ∧ (∀ a, (NameClassMapContext.with_ issubclass c body h).1
          = Return (Some a) →
       ∃ h1, NameClassMapContext.__enter__ issubclass c h = (Return (), h1)
             ∧ (body h1).1 = Return a
             ∧ is_return (NameClassMapContext.__exit__ issubclass c None
                            (body h1).2).1 = true)
  ∧ (∀ h1 e, NameClassMapContext.__enter__ issubclass c h = (Return (), h1) →
       (body h1).1 = Raise e →
       is_raise (NameClassMapContext.with_ issubclass c body h).1 = true).
Proof.
  unfold NameClassMapContext.with_.
  destruct (NameClassMapContext.__enter__ issubclass c h) as [[[]|e0] h1].
  2:{ split; [done|]. split; [done|]. by intros h1' e [=]. }
  destruct (body h1) as [[a|e] h2] eqn:Hbody.
  - destruct (NameClassMapContext.__exit__ issubclass c None h2)
      as [[b|e'] h3] eqn:Hexit; simpl.
    + split; [done|]. split.
      * intros a' [= <-]. exists h1. rewrite Hbody. simpl.
        by rewrite Hexit.
      * intros h1' e [= <-]. rewrite Hbody. done.
    + split; [done|]. split; [done|]. done.
  - pose proof (exit_returns_false c (Some e) h2) as Hfalse.
    destruct (NameClassMapContext.__exit__ issubclass c (Some e) h2)
      as [[b|e'] h3]; simpl in *.
    + rewrite (Hfalse b eq_refl). simpl. done.
    + done.
Qed.

End ScopeFacts.

(** ** Promotion of R vectors: the other branches *)

Section PromotionMoreFacts.
Variable POSIXct_isrinstance : Sexp → bool.

(** [sexpvector_to_ro] raises exactly on objects that are no instance
    of [SexpVector], and then a [ValueError].  On a vector it returns
    the object itself or a wrapper built from that very object, and it
    is the object itself exactly when the classes do not contain
    'data.frame' and the storage type is none of the nine the function
    has a branch for. *)
Theorem sexpvector_to_ro_outcome (obj : Sexp) :
  (isinstance obj ty_SexpVector = false →
     ∃ msg, sexpvector_to_ro POSIXct_isrinstance obj = Raise (ValueError msg))
  ∧ (isinstance obj ty_SexpVector = true →
     (sexpvector_to_ro POSIXct_isrinstance obj = Return (Asis obj)
      ∨ ∃ c, sexpvector_to_ro POSIXct_isrinstance obj = Return (New c obj))
     ∧ (sexpvector_to_ro POSIXct_isrinstance obj = Return (Asis obj)
        ↔ ("data.frame" ∉ rclass obj) ∧ typeof obj ∉ handled_types)).
Proof.
  split.
  - intros Hvec. unfold sexpvector_to_ro. rewrite Hvec. simpl. eauto.
  - intros Hvec. rewrite (sexpvector_to_ro_vector _ obj Hvec).
    unfold sexpvector_cls, handled_types.
    destruct (decide ("data.frame" ∈ rclass obj)) as [Hdf|Hdf].
    { split; [eauto|]. split; [done|]. by intros [? _]. }
    destruct (typeof obj); simpl;
      repeat match goal with
             | |- context [decide ("factor" ∈ rclass obj)] =>
                 destruct (decide ("factor" ∈ rclass obj))
             | |- context [decide ("formula" ∈ rclass obj)] =>
                 destruct (decide ("formula" ∈ rclass obj))
             | |- context [POSIXct_isrinstance obj] =>
                 destruct (POSIXct_isrinstance obj)
             end;
      (split; [eauto|]);
      (split; [ first [ discriminate
                      | intros _; split; [done|];
                        apply (bool_decide_unpack _); vm_compute; exact I ]
              | first [ done
                      | intros [_ Hty]; exfalso; apply Hty;
                        apply (bool_decide_unpack _); vm_compute; exact I ] ]).
Qed.

(** A real vector that [POSIXct.isrinstance] accepts becomes a
    [POSIXct], whatever its dimension attribute, unless its classes
    contain 'data.frame'. *)
Theorem posixct_before_shape (obj : Sexp) :
  isinstance obj ty_SexpVector = true →
  typeof obj = REALSXP →
  "data.frame" ∉ rclass obj →
  POSIXct_isrinstance obj = true →
  sexpvector_to_ro POSIXct_isrinstance obj = Return (New POSIXct obj).
Proof.
  intros Hvec Hty Hdf Hposix. rewrite (sexpvector_to_ro_vector _ obj Hvec).
  unfold sexpvector_cls. rewrite Hty, Hposix.
  by destruct (decide ("data.frame" ∈ rclass obj)).
Qed.

(** A dimension attribute on which [len] raises counts as no dimension
    attribute: the exception is swallowed and the object gets the
    plain vector class. *)
Theorem unreadable_dimension_gives_vector (obj : Sexp) (vec mat arr : pycls)
    d e :
  isinstance obj ty_SexpVector = true →
  shape_classes (typeof obj) = Some (vec, mat, arr) →
  "data.frame" ∉ rclass obj →
  "factor" ∉ rclass obj →
  POSIXct_isrinstance obj = false →
  slots obj !! "dim" = Some d →
  len d = Raise e →
  sexpvector_to_ro POSIXct_isrinstance obj = Return (New vec obj).
Proof.
  intros Hvec Hshape Hdf Hfac Hposix Hdim Hlen.
  rewrite (sexpvector_to_ro_vector _ obj Hvec).
  rewrite (sexpvector_cls_shape _ obj vec mat arr Hshape Hdf Hfac Hposix).
  by rewrite (vector_matrix_array_unsized obj vec mat arr d e Hdim Hlen).
Qed.

(** Lists, pairlists and language objects do not go through the shape
    rule: whatever their dimension attribute, a VECSXP becomes a
    [ListVector], a LISTSXP a [PairlistVector] and a LANGSXP a
    [Formula] or a [LangVector], according to whether its classes
    contain 'formula'; none becomes a matrix or an array. *)
Theorem lists_ignore_dimension (obj : Sexp) :
  isinstance obj ty_SexpVector = true →
  "data.frame" ∉ rclass obj →
  (typeof obj = VECSXP →
     sexpvector_to_ro POSIXct_isrinstance obj = Return (New ListVector obj))
  ∧ (typeof obj = LISTSXP →
     sexpvector_to_ro POSIXct_isrinstance obj
     = Return (New PairlistVector obj))
  ∧ (typeof obj = LANGSXP →
     sexpvector_to_ro POSIXct_isrinstance obj
     = Return (New (if decide ("formula" ∈ rclass obj)
                    then Formula else LangVector) obj)).
Proof.
  intros Hvec Hdf. rewrite (sexpvector_to_ro_vector _ obj Hvec).
  unfold sexpvector_cls.
  destruct (decide ("data.frame" ∈ rclass obj)) as [|_]; [done|].
  repeat split; intros ->; simpl; [done..|].
  by destruct (decide ("formula" ∈ rclass obj)).
Qed.

(** The class 'factor' counts for integer vectors only: on a logical,
    string, complex or raw vector, and on a real vector that is no
    POSIXct, the shape rule applies whether or not the classes contain
    'factor'. *)
Theorem factor_ignored_unless_integer (obj : Sexp) (vec mat arr : pycls) :
  isinstance obj ty_SexpVector = true →
  typeof obj ≠ INTSXP →
  shape_classes (typeof obj) = Some (vec, mat, arr) →
  "data.frame" ∉ rclass obj →
  POSIXct_isrinstance obj = false →
  sexpvector_to_ro POSIXct_isrinstance obj
  = Return (New (_vector_matrix_array obj vec mat arr) obj).
Proof.
  intros Hvec Hint Hshape Hdf Hposix.
  rewrite (sexpvector_to_ro_vector _ obj Hvec).
  unfold sexpvector_cls. rewrite Hposix.
  destruct (decide ("data.frame" ∈ rclass obj)) as [|_]; [done|].
  destruct (typeof obj); simpl in Hshape; try discriminate; try done;
    injection Hshape as <- <- <-; reflexivity.
Qed.

End PromotionMoreFacts.

(** ** From a Python sequence to an R vector: order and concatenation *)

(** [sequence_to_vector] either raises a [ValueError], on the empty
    list and on a list with an element of a type without priority, or
    returns the class of the most general type. *)
Lemma sequence_to_vector_cases (lst : list pyvalue) :
  ((lst = [] ∨ Exists (λ elt, TYPEORDER (type elt) = None) lst)
   ∧ ∃ msg, sequence_to_vector lst = Raise (ValueError msg))
  ∨ (lst ≠ [] ∧ Forall (λ e, type e ∈ registered_types) lst
     ∧ sequence_to_vector lst = Return (New (most_general_vector lst) lst)).
Proof.
  destruct lst as [|e0 l]; [left; split; [by left|vm_compute; eauto]|].
  destruct (decide (Exists (λ elt, TYPEORDER (type elt) = None) (e0 :: l)))
    as [Hex|Hnex].
  - left. split; [by right|].
    destruct (stv_loop_unregistered (e0 :: l) 0 (mkLocals (-1) None None) Hex)
      as [msg Hmsg].
    exists msg. unfold sequence_to_vector. by rewrite Hmsg.
  - right. split; [done|].
    assert (Hall : Forall (λ e, type e ∈ registered_types) (e0 :: l)).
    { apply not_Exists_Forall in Hnex; [|apply _].
      eapply Forall_impl; [exact Hnex|].
      intros x Hx. simpl in Hx. apply TYPEORDER_registered.
      destruct (TYPEORDER (type x)); [eauto|done]. }
    split; [done|]. by apply sequence_to_vector_registered.
Qed.

Lemma has_type_Permutation t (l l' : list pyvalue) :
  l ≡ₚ l' → has_type t l = has_type t l'.
Proof.
  unfold has_type. induction 1 as [|x l l' _ IH|x y l|l l' l'' _ IH1 _ IH2];
    simpl.
  - done.
  - by rewrite IH.
  - by rewrite !orb_assoc, (orb_comm (bool_decide (type y = t))).
  - by rewrite IH1.
Qed.

(** The outcome of [sequence_to_vector] does not depend on the order
    of the elements: a rearranged list raises when the list raises,
    and gives the same vector class when it returns. *)
Theorem sequence_to_vector_order_irrelevant (l l' : list pyvalue) :
  l ≡ₚ l' →
  is_raise (sequence_to_vector l) = is_raise (sequence_to_vector l')
  ∧ result_class (sequence_to_vector l)
    = result_class (sequence_to_vector l').
Proof.
  intros Hperm.
  assert (Hmgv : most_general_vector l = most_general_vector l').
  { unfold most_general_vector.
    by rewrite !(has_type_Permutation _ l l' Hperm). }
  destruct (sequence_to_vector_cases l) as [[Hbad [msg Hmsg]]|(Hne & Hall & Hok)];
    destruct (sequence_to_vector_cases l')
      as [[Hbad' [msg' Hmsg']]|(Hne' & Hall' & Hok')].
  - by rewrite Hmsg, Hmsg'.
  - exfalso. destruct Hbad as [->|Hex].
    + apply Permutation_nil_l in Hperm. by subst.
    + apply Exists_exists in Hex as (e & Hin & He).
      rewrite Hperm in Hin.
      apply (proj1 (Forall_forall _ _) Hall'), TYPEORDER_registered in Hin.
      rewrite He in Hin. by destruct Hin.
  - exfalso. destruct Hbad' as [->|Hex].
    + apply Permutation_nil_r in Hperm. by subst.
    + apply Exists_exists in Hex as (e & Hin & He).
      rewrite <- Hperm in Hin.
      apply (proj1 (Forall_forall _ _) Hall), TYPEORDER_registered in Hin.
      rewrite He in Hin. by destruct Hin.
  - rewrite Hok, Hok'. simpl. by rewrite Hmgv.
Qed.

(** When [sequence_to_vector] returns the class [c1] for a list and
    [c2] for another, it returns for their concatenation the one of
    the two that has the higher priority in [TYPEORDER]. *)
Theorem sequence_to_vector_concatenation (l1 l2 : list pyvalue)
    (c1 c2 : pycls) :
  result_class (sequence_to_vector l1) = Some c1 →
  result_class (sequence_to_vector l2) = Some c2 →
  sequence_to_vector (l1 ++ l2)
  = Return (New (if decide (priority c1 < priority c2)%Z then c2 else c1)
              (l1 ++ l2)).
Proof.
  intros H1 H2.
  destruct (sequence_to_vector_cases l1) as [[_ [msg Hmsg]]|(Hne1 & Hall1 & Hok1)].
  { by rewrite Hmsg in H1. }
  destruct (sequence_to_vector_cases l2) as [[_ [msg Hmsg]]|(Hne2 & Hall2 & Hok2)].
  { by rewrite Hmsg in H2. }
  rewrite Hok1 in H1. rewrite Hok2 in H2. simpl in H1, H2.
  injection H1 as <-. injection H2 as <-.
  rewrite sequence_to_vector_registered.
  - f_equal. f_equal. unfold most_general_vector.
    rewrite !has_type_app.
    destruct (has_type ty_str l1), (has_type ty_complex l1),
      (has_type ty_float l1), (has_type ty_int l1),
      (has_type ty_str l2), (has_type ty_complex l2),
      (has_type ty_float l2), (has_type ty_int l2); reflexivity.
  - destruct l1; [done|]. discriminate.
  - by apply Forall_app.
Qed.

(** Witness: [["s", 1, True]] and [[True, 1, "s"]]. *)
Lemma sequence_to_vector_order_irrelevant_witness :
  [PyStr "s"; PyInt 1; PyBool true] ≡ₚ [PyBool true; PyInt 1; PyStr "s"]
  ∧ result_class (sequence_to_vector [PyStr "s"; PyInt 1; PyBool true])
    = result_class (sequence_to_vector [PyBool true; PyInt 1; PyStr "s"]).
Proof.
  assert (H1 : [PyStr "s"; PyInt 1; PyBool true]
               ≡ₚ [PyBool true; PyInt 1; PyStr "s"]).
  { etrans; [apply perm_skip, perm_swap|]. etrans; [apply perm_swap|].
    apply perm_skip, perm_swap. }
  split; [exact H1|].
  exact (proj2 (sequence_to_vector_order_irrelevant _ _ H1)).
Defined.

(** Witness: [[1, 0.0]] gives a [FloatVector], [[True]] a
    [BoolVector], and their concatenation a [FloatVector]. *)
Lemma sequence_to_vector_concatenation_witness :
  result_class (sequence_to_vector [PyInt 1; PyFloat 0]) = Some FloatVector
  ∧ result_class (sequence_to_vector [PyBool true]) = Some BoolVector
  ∧ sequence_to_vector ([PyInt 1; PyFloat 0] ++ [PyBool true])
    = Return (New FloatVector ([PyInt 1; PyFloat 0] ++ [PyBool true])).
Proof.
  assert (H1 : result_class (sequence_to_vector [PyInt 1; PyFloat 0])
               = Some FloatVector) by reflexivity.
  assert (H2 : result_class (sequence_to_vector [PyBool true])
               = Some BoolVector) by reflexivity.
  split; [exact H1|]. split; [exact H2|].
  exact (sequence_to_vector_concatenation _ _ _ _ H1 H2).
Defined.

(** Witness: entering [{"A": ClsY, "B": ClsZ}] on the table [{"A":
    ClsX}]. *)
Lemma enter_installs_overrides_witness :
  ncms override_heap !! 0%nat = Some override_map
  ∧ ctxs override_heap !! 1%nat = Some override_ctx
  ∧ NoDup (_d override_ctx).*1
  ∧ Forall (λ kv, s4_issubclass kv.2 (_default override_map) = true)
      (_d override_ctx)
  ∧ ∃ h1 m1,
      NameClassMapContext.__enter__ s4_issubclass 1%nat override_heap
      = (Return (), h1)
      ∧ ncms h1 !! 0%nat = Some m1
      ∧ NameClassMap.__getitem__ m1 "A" = Return ClsY
      ∧ NameClassMap.__getitem__ m1 "B" = Return ClsZ.
Proof.
  assert (H1 : ncms override_heap !! 0%nat = Some override_map)
    by reflexivity.
  assert (H2 : ctxs override_heap !! 1%nat = Some override_ctx)
    by reflexivity.
  assert (H3 : NoDup (_d override_ctx).*1) by by_evaluation.
  assert (H4 : Forall (λ kv, s4_issubclass kv.2 (_default override_map) = true)
                 (_d override_ctx)) by by_evaluation.
  split; [exact H1|]. split; [exact H2|]. split; [exact H3|].
  split; [exact H4|].
  destruct (enter_installs_overrides s4_issubclass 1%nat 0%nat override_heap
              override_map override_ctx H1 H2 eq_refl H3 H4)
    as (h1 & m1 & x1 & Henter & Hm1 & _ & _ & Hin & _).
  exists h1, m1. split; [exact Henter|]. split; [exact Hm1|].
  split; apply Hin; simpl; rewrite !elem_of_cons; tauto.
Defined.

(** Witness: the items [{"B": ClsY, "A": NotS4, "C": ClsZ}] on the
    table [{"A": ClsX}]: the statement raises and ["B"] stays mapped
    to [ClsY]. *)
Lemma enter_fails_without_rollback_witness :
  let body : M s4cls unit := ret () in
  ncms invalid_heap !! 0%nat = Some override_map
  ∧ ctxs invalid_heap !! 1%nat = Some invalid_ctx
  ∧ NoDup (_d invalid_ctx).*1
  ∧ s4_issubclass NotS4 (_default override_map) = false
  ∧ ∃ h1 m1,
      NameClassMapContext.with_ s4_issubclass 1%nat body invalid_heap
      = (Raise AssertionError, h1)
      ∧ ncms h1 !! 0%nat = Some m1
      ∧ NameClassMap.__getitem__ m1 "B" = Return ClsY.
Proof.
  intros body.
  assert (H1 : ncms invalid_heap !! 0%nat = Some override_map)
    by reflexivity.
  assert (H2 : ctxs invalid_heap !! 1%nat = Some invalid_ctx)
    by reflexivity.
  assert (H3 : NoDup (_d invalid_ctx).*1) by by_evaluation.
  assert (H4 : s4_issubclass NotS4 (_default override_map) = false)
    by reflexivity.
  assert (H5 : Forall (λ kv, s4_issubclass kv.2 (_default override_map) = true)
                 [("B", ClsY)]) by by_evaluation.
  split; [exact H1|]. split; [exact H2|]. split; [exact H3|].
  split; [exact H4|].
  destruct (enter_fails_without_rollback s4_issubclass 1%nat 0%nat body
              invalid_heap override_map invalid_ctx
              [("B", ClsY)] "A" NotS4 [("C", ClsZ)]
              H1 H2 eq_refl eq_refl H3 H5 H4)
    as (h1 & m1 & Hwith & Hm1 & Hin & _).
  exists h1, m1. split; [exact Hwith|]. split; [exact Hm1|].
  apply Hin. by apply list_elem_of_singleton.
Defined.

(** Witness: a real vector of classes POSIXct and POSIXt with a
    dimension of length 2. *)
Lemma posixct_before_shape_witness :
  let obj := vector_sexp REALSXP ["POSIXct"; "POSIXt"]
               {[ "dim" := IntSlot [2; 3]%Z ]} in
  isinstance obj ty_SexpVector = true
  ∧ typeof obj = REALSXP
  ∧ ("data.frame" ∉ rclass obj)
  ∧ sexpvector_to_ro (λ _, true) obj = Return (New POSIXct obj).
Proof.
  intros obj.
  assert (H1 : isinstance obj ty_SexpVector = true) by by_evaluation.
  assert (H3 : "data.frame" ∉ rclass obj) by by_evaluation.
  split; [exact H1|]. split; [reflexivity|]. split; [exact H3|].
  exact (posixct_before_shape (λ _, true) obj H1 eq_refl H3 eq_refl).
Defined.

(** Witness: a string vector whose dimension attribute has no length.
    *)
Lemma unreadable_dimension_gives_vector_witness :
  let obj := vector_sexp STRSXP [] {[ "dim" := UnsizedSlot ]} in
  isinstance obj ty_SexpVector = true
  ∧ shape_classes (typeof obj) = Some (StrVector, StrMatrix, StrArray)
  ∧ ("data.frame" ∉ rclass obj)
  ∧ ("factor" ∉ rclass obj)
  ∧ slots obj !! "dim" = Some UnsizedSlot
  ∧ len UnsizedSlot = Raise TypeError
  ∧ sexpvector_to_ro (λ _, false) obj = Return (New StrVector obj).
Proof.
  intros obj.
  assert (H1 : isinstance obj ty_SexpVector = true) by by_evaluation.
  assert (H2 : shape_classes (typeof obj)
               = Some (StrVector, StrMatrix, StrArray)) by reflexivity.
  assert (H3 : "data.frame" ∉ rclass obj) by by_evaluation.
  assert (H4 : "factor" ∉ rclass obj) by by_evaluation.
  assert (H5 : slots obj !! "dim" = Some UnsizedSlot) by reflexivity.
  split; [exact H1|]. split; [exact H2|]. split; [exact H3|].
  split; [exact H4|]. split; [exact H5|]. split; [reflexivity|].
  exact (unreadable_dimension_gives_vector (λ _, false) obj
           StrVector StrMatrix StrArray UnsizedSlot TypeError
           H1 H2 H3 H4 eq_refl H5 eq_refl).
Defined.

(** Witness: a list with a dimension of length 2 becomes a
    [ListVector]. *)
Lemma lists_ignore_dimension_witness :
  let obj := vector_sexp VECSXP [] {[ "dim" := IntSlot [2; 2]%Z ]} in
  isinstance obj ty_SexpVector = true
  ∧ ("data.frame" ∉ rclass obj)
  ∧ sexpvector_to_ro (λ _, false) obj = Return (New ListVector obj).
Proof.
  intros obj.
  assert (H1 : isinstance obj ty_SexpVector = true) by by_evaluation.
  assert (H2 : "data.frame" ∉ rclass obj) by by_evaluation.
  split; [exact H1|]. split; [exact H2|].
  exact (proj1 (lists_ignore_dimension (λ _, false) obj H1 H2) eq_refl).
Defined.

(** Witness: a string vector of class factor with a dimension of
    length 2 becomes a [StrMatrix]. *)
Lemma factor_ignored_unless_integer_witness :
  let obj := vector_sexp STRSXP ["factor"] {[ "dim" := IntSlot [2; 2]%Z ]} in
  isinstance obj ty_SexpVector = true
  ∧ typeof obj ≠ INTSXP
  ∧ shape_classes (typeof obj) = Some (StrVector, StrMatrix, StrArray)
  ∧ ("data.frame" ∉ rclass obj)
  ∧ sexpvector_to_ro (λ _, false) obj
    = Return (New (_vector_matrix_array obj StrVector StrMatrix StrArray) obj)
  ∧ _vector_matrix_array obj StrVector StrMatrix StrArray = StrMatrix.
Proof.
  intros obj.
  assert (H1 : isinstance obj ty_SexpVector = true) by by_evaluation.
  assert (H2 : typeof obj ≠ INTSXP) by discriminate.
  assert (H3 : shape_classes (typeof obj)
               = Some (StrVector, StrMatrix, StrArray)) by reflexivity.
  assert (H4 : "data.frame" ∉ rclass obj) by by_evaluation.
  split; [exact H1|]. split; [exact H2|]. split; [exact H3|].
  split; [exact H4|]. split; [|reflexivity].
  exact (factor_ignored_unless_integer (λ _, false) obj
           StrVector StrMatrix StrArray H1 H2 H3 H4 eq_refl).
Defined.

(** ** Conversion of S4 objects *)

Section S4Facts.
Context {cls : Type} (issubclass : cls → cls → bool).
Variable extends : list string → list string.
Implicit Types (m : NameClassMap cls) (h : heap cls).

(** An S4 object of which no class name, among those [extends] lists,
    is a key of [_rs4_map] is wrapped in the default class of the map
    ([RS4] for the map the module creates), and the conversion leaves
    the heap as it is. *)
Theorem s4_without_registered_class h m (obj : Sexp) :
  ncms h !! _rs4_map = Some m →
  Forall (λ k', NameClassMap.__contains__ m k' = false)
    (extends (rclass obj)) →
  _rpy2py_sexps4 extends obj h = (Return (New (S4Class (_default m)) obj), h).
Proof.
  intros Hm Hnone. unfold _rpy2py_sexps4, bind, read_ncm. rewrite Hm.
  rewrite find_no_key; [done|].
  eapply Forall_impl; [exact Hnone|]. intros k'. apply contains_false.
Qed.

(** [with rs4map_context(d): _rpy2py_sexps4(obj)]: when the first class
    name of the object that is a key inside the scope is a name of
    [d], and not the empty string, the object is wrapped in the class
    [d] gives for that name; after the statement [_rs4_map] is as it
    was before. *)
Theorem s4_conversion_within_scope h m (d : list (string * cls))
    (obj : Sexp) before k (v : cls) after :
  ncms h !! _rs4_map = Some m →
  NameClassMap.wf issubclass m →
  NoDup d.*1 →
  Forall (λ kv, issubclass kv.2 (_default m) = true) d →
  extends (rclass obj) = before ++ k :: after →
  Forall (λ k', (k' ∉ d.*1) ∧ NameClassMap.__contains__ m k' = false) before →
  (k, v) ∈ d →
  k ≠ EmptyString →
  (convert_s4_within issubclass extends d obj h).1
  = Return (Some (New (S4Class v) obj))
  ∧ ncms (convert_s4_within issubclass extends d obj h).2 !! _rs4_map
    = Some m.
Proof.
  intros Hm Hwf Hnd Hsub Hext Hbefore Hin Hne.
  set (c := fresh (dom (ctxs h))).
  set (x := mkNameClassMapContext _rs4_map d []).
  set (h0 := mkHeap (ncms h) (<[c := x]> (ctxs h))).
  set (h1 := entered _rs4_map c m x h0).
  assert (Hbody : _rpy2py_sexps4 extends obj h1
                  = (Return (New (S4Class v) obj), h1)).
  { unfold _rpy2py_sexps4, bind, read_ncm.
    assert (ncms h1 !! _rs4_map
            = Some (mkNameClassMap (_default m) (install d (_map m)))) as ->
      by apply lookup_insert_eq.
    rewrite Hext, (find_first_key _ before k after v); [done| | |done].
    - eapply Forall_impl; [exact Hbefore|]. intros k' [Hk' Hc]. simpl.
      rewrite install_lookup_notin by done. by apply contains_false.
    - simpl. by apply install_lookup_elem. }
  assert (Hrun : convert_s4_within issubclass extends d obj h
    = (Return (Some (New (S4Class v) obj)),
       mkHeap (<[_rs4_map := m]> (ncms h1)) (ctxs h1))).
  { unfold convert_s4_within, bind.
    change (rs4map_context d h) with (Return c, h0). cbv beta iota.
    rewrite (with_spec issubclass c _rs4_map (_rpy2py_sexps4 extends obj)
               h0 m x); fold h1.
    - by rewrite Hbody.
    - done.
    - done.
    - apply lookup_insert_eq.
    - done.
    - done.
    - done.
    - done.
    - by rewrite Hbody.
    - by rewrite Hbody. }
  rewrite Hrun. split; [done|]. apply lookup_insert_eq.
Qed.

(** Every function the module has registered for the inbound direction
    leaves the heap, hence [_rs4_map], as it is, and hands back its
    argument or a wrapper built from that very argument; it raises
    only for [SexpVector], on an object that is no instance of it. *)
Theorem registered_functions_wrap_their_argument
    (POSIXct_isrinstance : Sexp → bool) h t f (obj : Sexp) :
  is_Some (ncms h !! _rs4_map) →
  (t, f) ∈ conversion.rpy2py_table
             (default_converter POSIXct_isrinstance extends) →
  (f obj h).2 = h
  ∧ ((f obj h).1 = Return (Asis obj)
     ∨ (∃ w, (f obj h).1 = Return (New w obj))
     ∨ (t = ty_SexpVector ∧ isinstance obj ty_SexpVector = false
        ∧ ∃ msg, (f obj h).1 = Raise (ValueError msg))).
Proof.
  intros [m Hm] Hin.
  assert (Htable :
    conversion.rpy2py_table
      (default_converter (cls := cls) POSIXct_isrinstance extends)
    = [(ty_object, rpy2py_underscore); (ty_NULLType, _rpy2py_null);
       (ty_SexpExtPtr, _rpy2py_sexpextptr);
       (ty_SexpS4, _rpy2py_sexps4 extends);
       (ty_SexpEnvironment, _rpy2py_sexpenvironment);
       (ty_SexpClosure, _rpy2py_sexpclosure);
       (ty_SexpVector, rpy2py_sexpvector POSIXct_isrinstance);
       (ty_RObject, _rpy2py_robject)]) by reflexivity.
  rewrite Htable in Hin. clear Htable.
  repeat (apply elem_of_cons in Hin as [[= -> ->]|Hin]).
  - split; [done|]. by left.
  - split; [done|]. by left.
  - split; [done|]. by left.
  - unfold _rpy2py_sexps4, bind, read_ncm. rewrite Hm.
    destruct (find_returns m (extends (rclass obj))) as (cl & -> & _).
    split; [done|]. right. left. eauto.
  - split; [done|]. right. left. eauto.
  - split; [done|]. right. left. eauto.
  - unfold rpy2py_sexpvector, sexpvector_to_ro.
    destruct (isinstance obj ty_SexpVector) eqn:Hvec; simpl.
    + destruct (sexpvector_cls POSIXct_isrinstance obj) as [cl|].
      * split; [done|]. right. left. eauto.
      * split; [done|]. by left.
    + split; [done|]. right. right. eauto.
  - split; [done|]. by left.
  - by apply elem_of_nil in Hin.
Qed.

End S4Facts.

(** Witness: with the map as the module creates it, an object of class
    lmList is wrapped in [RS4]. *)
Lemma s4_without_registered_class_witness :
  let extends : list string → list string := λ names, names ++ ["list"] in
  ncms (module_heap RS4) !! _rs4_map = Some (NameClassMap.__init__ RS4)
  ∧ Forall (λ k', NameClassMap.__contains__ (NameClassMap.__init__ RS4) k'
                  = false) (extends (rclass s4_sexp))
  ∧ _rpy2py_sexps4 extends s4_sexp (module_heap RS4)
    = (Return (New (S4Class RS4) s4_sexp), module_heap RS4).
Proof.
  intros extends.
  assert (H1 : ncms (module_heap RS4) !! _rs4_map
               = Some (NameClassMap.__init__ RS4)) by reflexivity.
  assert (H2 : Forall (λ k', NameClassMap.__contains__
                               (NameClassMap.__init__ RS4) k' = false)
                 (extends (rclass s4_sexp))) by by_evaluation.
  split; [exact H1|]. split; [exact H2|].
  exact (s4_without_registered_class extends (module_heap RS4)
           (NameClassMap.__init__ RS4) s4_sexp H1 H2).
Defined.

(** Witness: inside [rs4map_context({"list": ClsX})] an object of
    class lmList, which extends list, is wrapped in [ClsX]. *)
Lemma s4_conversion_within_scope_witness :
  let extends : list string → list string := λ names, names ++ ["list"] in
  let d := [("list", ClsX)] in
  ncms (module_heap RS4) !! _rs4_map = Some (NameClassMap.__init__ RS4)
  ∧ NameClassMap.wf s4_issubclass (NameClassMap.__init__ RS4)
  ∧ NoDup d.*1
  ∧ Forall (λ kv, s4_issubclass kv.2 RS4 = true) d
  ∧ extends (rclass s4_sexp) = ["lmList"] ++ "list" :: []
  ∧ (convert_s4_within s4_issubclass extends d s4_sexp (module_heap RS4)).1
    = Return (Some (New (S4Class ClsX) s4_sexp))
  ∧ ncms (convert_s4_within s4_issubclass extends d s4_sexp
            (module_heap RS4)).2 !! _rs4_map
    = Some (NameClassMap.__init__ RS4).
Proof.
  intros extends d.
  assert (H1 : ncms (module_heap RS4) !! _rs4_map
               = Some (NameClassMap.__init__ RS4)) by reflexivity.
  assert (H2 : NameClassMap.wf s4_issubclass (NameClassMap.__init__ RS4))
    by (unfold NameClassMap.wf; by_evaluation).
  assert (H3 : NoDup d.*1) by by_evaluation.
  assert (H4 : Forall (λ kv, s4_issubclass kv.2 RS4 = true) d)
    by by_evaluation.
  assert (H5 : extends (rclass s4_sexp) = ["lmList"] ++ "list" :: [])
    by reflexivity.
  assert (H6 : Forall (λ k', (k' ∉ d.*1)
                 ∧ NameClassMap.__contains__ (NameClassMap.__init__ RS4) k'
                   = false) ["lmList"]) by by_evaluation.
  assert (H7 : ("list", ClsX) ∈ d) by by_evaluation.
  assert (H8 : "list" ≠ EmptyString) by discriminate.
  split; [exact H1|]. split; [exact H2|]. split; [exact H3|].
  split; [exact H4|]. split; [exact H5|].
  exact (s4_conversion_within_scope s4_issubclass extends (module_heap RS4)
           (NameClassMap.__init__ RS4) d s4_sexp ["lmList"] "list" ClsX []
           H1 H2 H3 H4 H5 H6 H7 H8).
Defined.

(** Witness: the function registered for [SexpEnvironment], on an
    environment. *)
Lemma registered_functions_wrap_their_argument_witness :
  let extends : list string → list string := λ names, names in
  is_Some (ncms (module_heap RS4) !! _rs4_map)
  ∧ (ty_SexpEnvironment, _rpy2py_sexpenvironment)
    ∈ conversion.rpy2py_table
        (default_converter (cls := s4cls) (λ _, false) extends)
  ∧ (_rpy2py_sexpenvironment env_sexp (module_heap RS4)).2 = module_heap RS4.
Proof.
  intros extends.
  assert (H1 : is_Some (ncms (module_heap RS4) !! _rs4_map))
    by (by eexists).
  assert (H2 : (ty_SexpEnvironment, _rpy2py_sexpenvironment)
               ∈ conversion.rpy2py_table
                   (default_converter (cls := s4cls) (λ _, false) extends)).
  { do 4 apply list_elem_of_further. apply list_elem_of_here. }
  split; [exact H1|]. split; [exact H2|].
  exact (proj1 (registered_functions_wrap_their_argument extends (λ _, false)
                  (module_heap RS4) ty_SexpEnvironment
                  _rpy2py_sexpenvironment env_sexp H1 H2)).
Defined.

(** ** Formula: its environment *)

Section FormulaFacts.
Context {V : Type} (rpy2py : Sexp → outcome V).

(** [setenvironment] raises [TypeError], and leaves the formula as it
    is, for a value that is no instance of [SexpEnvironment].  For an
    environment it returns, [getenvironment] then gives the conversion
    of that very environment, and the other attributes of the formula
    are as they were.  Without the attribute, [getenvironment] raises
    [LookupError]. *)
Theorem setenvironment_then_getenvironment (self : FormulaObject) (val : Sexp) :
  (isinstance val ty_SexpEnvironment = false →
     Formula.setenvironment self val = (Raise TypeError, self))
  ∧ (isinstance val ty_SexpEnvironment = true →
     ∃ self', Formula.setenvironment self val = (Return (), self')
       ∧ Formula.getenvironment rpy2py self' = rpy2py val
       ∧ ∀ name, name ≠ ".Environment" →
           attributes self' !! name = attributes self !! name)
  ∧ (attributes self !! ".Environment" = None →
     Formula.getenvironment rpy2py self = Raise LookupError).
Proof.
  unfold Formula.setenvironment, Formula.getenvironment.
  split; [|split].
  - by intros ->.
  - intros ->. simpl. eexists. split; [reflexivity|]. simpl.
    rewrite lookup_insert_eq. split; [done|].
    intros name Hne. by rewrite lookup_insert_ne.
  - by intros ->.
Qed.

End FormulaFacts.

(** ** R, the singleton *)

Lemma R_calls_initialised self s n :
  _instance s = Some self →
  R_calls n s = (replicate n self, s).
Proof.
  intros Hs. induction n as [|n IH]; [done|].
  simpl. unfold R.__new__. rewrite Hs. by rewrite IH.
Qed.

(** However many times [R()] is called, every call returns the same
    object, and [rinterface.initr_simple] is called by the first of
    them only: not at all when the instance exists already, once
    otherwise. *)
Theorem R_is_a_singleton (s : R_state) (n : nat) :
  (∀ self, _instance s = Some self →
     R_calls n s = (replicate n self, s))
  ∧ (_instance s = None →
     (R_calls (S n) s).1 = replicate (S n) (next_object s)
     ∧ _instance (R_calls (S n) s).2 = Some (next_object s)
     ∧ initr_simple_calls (R_calls (S n) s).2 = S (initr_simple_calls s)).
Proof.
  split; [intros self; apply R_calls_initialised|].
  intros Hs.
  change (R_calls (S n) s)
    with (let '(self, s1) := R.__new__ s in
          let '(rest, s2) := R_calls n s1 in (self :: rest, s2)).
  unfold R.__new__. rewrite Hs.
  by rewrite (R_calls_initialised (next_object s)).
Qed.
